(** * cli-chat: a two-party chat server and its call-signaling relay

    A shallow embedding of the Go sources

      - [server/main.go]   the chat server (presence registry, message relay
                           with a durable queue, call handshake), and
      - the signaling server of [video/] (sessions, queued offer, answer and
        ICE payloads),

    together with the properties the design document states about them.

    Both programs keep their shared state behind a mutex and never inspect
    the result of a network write.  Every handler is modelled as one action
    of a small state-and-output monad: it transforms the server state and
    emits, in program order, the effects it performs on the outside world
    (writes to a connection, closing a connection, statements run against
    the database). *)

From Stdlib Require Import ZArith Lia Ascii String Sorted Permutation.
From stdpp Require Import base decidable option list sorting strings pretty gmap.


(** ** Actions: state passing with an effect log *)

Module Act.
Section Act.
Context {St Ev : Type}.

Definition act (A : Type) : Type := St → A * St * list Ev.

Definition ret {A} (a : A) : act A := λ s, (a, s, []).

Definition bind {A B} (m : act A) (k : A → act B) : act B :=
  λ s, let r := m s in
       let r' := k r.1.1 r.1.2 in
       (r'.1.1, r'.1.2, r.2 ++ r'.2).

Definition gets {A} (f : St → A) : act A := λ s, (f s, s, []).
Definition modify (f : St → St) : act unit := λ s, (tt, f s, []).
Definition emit (e : Ev) : act unit := λ s, (tt, s, [e]).

(** [for _, x := range xs { body x }] *)
Fixpoint for_range {A} (xs : list A) (body : A → act unit) : act unit :=
  match xs with
  | [] => ret tt
  | x :: xs' => bind (body x) (λ _, for_range xs' body)
  end.

(** [if cond { body }] *)
Definition when (cond : bool) (body : act unit) : act unit :=
  if cond then body else ret tt.

(** The three components of a finished run. *)
Definition result {A} (r : A * St * list Ev) : A := r.1.1.
Definition state_of {A} (r : A * St * list Ev) : St := r.1.2.
Definition effects {A} (r : A * St * list Ev) : list Ev := r.2.
End Act.
End Act.
Import Act.

Declare Scope act_scope.
Delimit Scope act_scope with act.
Notation "x ← y ; z" := (bind y (λ x, z))
  (at level 20, y at level 100, z at level 200, only parsing) : act_scope.
Notation "x ;; z" := (bind x (λ _, z))
  (at level 100, z at level 200, only parsing, right associativity) : act_scope.

(** A connection is identified by its handle (the Go pointer). *)
Abbreviation conn := nat.

(** ** The chat server ([server/main.go])

    An earlier copy of this file is kept in the repository: it has the same
    [attach], a [detach] that only deletes the registry entry, and a
    [sendToPeer] without the database. *)

Module Chat.

Definition bilalUser : string := "bilal".
Definition zohaibUser : string := "zohaib".

Definition esc : string := String "027"%char "".
Definition reset : string := esc +:+ "[0m".
Definition green : string := esc +:+ "[32m".
Definition cyan : string := esc +:+ "[36m".
Definition yellow : string := esc +:+ "[33m".
Definition crlf : string := String "013"%char (String "010"%char "").

(** A row of the [messages] table. *)
Record message := Message {
  m_id : Z;
  m_sender : string;
  m_recipient : string;
  m_text : string;
  m_ts : nat;
  m_delivered : bool
}.

(** [chatServer]: the table behind [db], the registry [clients]
    (a missing key is Go's [nil]; a [userConn] is its connection, whose
    [name] is the key and whose [w] writes to it) and the pending call
    requests [videoReq] (callee to requester).  [closed] is the state of the network: the
    connections on which [Close] was called or whose transport failed;
    a write to one of them returns an error, which the code ignores. *)
Record chatServer := ChatServer {
  db : list message;
  clients : gmap string conn;
  videoReq : gmap string string;
  closed : gset conn
}.

Definition set_db (f : list message → list message) (s : chatServer) :=
  ChatServer (f (db s)) (clients s) (videoReq s) (closed s).
Definition set_clients (f : gmap string conn → gmap string conn) (s : chatServer) :=
  ChatServer (db s) (f (clients s)) (videoReq s) (closed s).
Definition set_videoReq (f : gmap string string → gmap string string) (s : chatServer) :=
  ChatServer (db s) (clients s) (f (videoReq s)) (closed s).
Definition set_closed (f : gset conn → gset conn) (s : chatServer) :=
  ChatServer (db s) (clients s) (videoReq s) (f (closed s)).

(** What a handler does to the outside world. *)
Inductive event :=
  | EvWrite (c : conn) (data : string) (ok : bool)
      (* [w.WriteString(data); w.Flush()] on [c]; [ok] tells whether the
         bytes left the server, and is looked at by nobody *)
  | EvClose (c : conn)                    (* [conn.Close()] *)
  | EvInsert (row : message)              (* INSERT INTO messages *)
  | EvMark (ids : list Z).                (* UPDATE messages SET delivered=1 *)

(** What the environment answers during one handler call: the clock, whether
    each database statement succeeds, the numbers [rand.Intn] is computed
    from, and the variable [VIDEO_BASE_URL]. *)
Record env := Env {
  now : nat;
  insert_ok : bool;
  query_ok : bool;
  update_ok : bool;
  draws : nat → nat;
  VIDEO_BASE_URL : string
}.

Abbreviation M := (@act chatServer event).

Local Open Scope act_scope.

(** *** Helpers *)

Definition conn_write (c : conn) (data : string) : M unit :=
  dead ← gets closed;
  emit (EvWrite c data (bool_decide (c ∉ dead))).

Definition write (w : conn) (color s : string) : M unit :=
  conn_write w (color +:+ s +:+ reset).

Definition writeLine (w : conn) (color s : string) : M unit :=
  conn_write w (color +:+ s +:+ reset +:+ crlf).

Definition promptSymbol (u : string) : string :=
  if decide (u = bilalUser) then green +:+ "> " +:+ reset
  else cyan +:+ "> " +:+ reset.

Definition writePrompt (w : conn) (u : string) : M unit :=
  conn_write w (promptSymbol u).

Definition conn_Close (c : conn) : M unit :=
  emit (EvClose c);;
  modify (set_closed (λ d, {[c]} ∪ d)).

(** *** Presence registry *)

Definition attach (username : string) (c : conn) : M unit :=
  old ← gets (λ s, clients s !! username);
  match old with Some o => conn_Close o | None => ret tt end;;
  modify (set_clients <[username := c]>).

Definition detach (username : string) : M unit :=
  modify (set_clients (delete username));;
  modify (set_videoReq (delete username)).

Definition peerOf (u : string) : string :=
  if decide (u = bilalUser) then zohaibUser else bilalUser.

(** Go ranges over the map in no fixed order; here in the order of
    [map_to_list]. *)
Definition systemBroadcast (exclude msg : string) : M unit :=
  conns ← gets (λ s, filter (λ uc, uc.1 ≠ exclude) (map_to_list (clients s)));
  for_range conns (λ uc,
    writeLine uc.2 yellow msg;;
    writePrompt uc.2 uc.1).

(** *** The durable queue: the [messages] table

    [id INTEGER PRIMARY KEY AUTOINCREMENT]: one more than the largest id
    handed out; no statement of the program deletes a row.  The [int64] the
    program reads an id into is far from its bound (SQLite refuses the
    insert rather than wrap), so ids are plain integers here. *)
Definition next_id (rows : list message) : Z :=
  (1 + foldr Z.max 0 (m_id <$> rows))%Z.

(** [ORDER BY ts ASC]: rows with equal [ts] keep their table order. *)
Fixpoint insert_by_ts (m : message) (l : list message) : list message :=
  match l with
  | [] => [m]
  | x :: l' => if decide (m_ts m < m_ts x) then m :: l
               else x :: insert_by_ts m l'
  end.

Definition order_by_ts (l : list message) : list message :=
  foldl (λ acc m, insert_by_ts m acc) [] l.

Definition undelivered_to (toUser : string) (m : message) : bool :=
  bool_decide (m_recipient m = toUser) && negb (m_delivered m).

(** [SELECT .. FROM messages WHERE recipient=? AND delivered=0 ORDER BY ts ASC] *)
Definition select_undelivered (toUser : string) (rows : list message) : list message :=
  order_by_ts (filter (λ m, undelivered_to toUser m = true) rows).

Definition set_delivered (m : message) : message :=
  Message (m_id m) (m_sender m) (m_recipient m) (m_text m) (m_ts m) true.

(** [UPDATE messages SET delivered=1 WHERE id IN (..)] *)
Definition mark_delivered (ids : list Z) (rows : list message) : list message :=
  (λ m, if decide (m_id m ∈ ids) then set_delivered m else m) <$> rows.

Definition db_insert (e : env) (from peer text : string) : M (option Z) :=
  if insert_ok e then
    rows ← gets db;
    let row := Message (next_id rows) from peer text (now e) false in
    emit (EvInsert row);;
    modify (set_db (λ d, d ++ [row]));;
    ret (Some (m_id row))
  else ret None.

Definition db_query (e : env) (toUser : string) : M (option (list message)) :=
  if query_ok e then
    rows ← gets db;
    ret (Some (select_undelivered toUser rows))
  else ret None.

Definition db_update (e : env) (ids : list Z) : M unit :=
  when (update_ok e) (
    emit (EvMark ids);;
    modify (set_db (mark_delivered ids))).

(** [strftime('%H:%M:%S', ts)] and [Format("15:04:05")], for a clock that
    counts seconds. *)
Definition two_digits (n : nat) : string :=
  if decide (n < 10) then "0" +:+ pretty n else pretty n.

Definition hhmmss (t : nat) : string :=
  two_digits ((t `div` 3600) `mod` 24) +:+ ":" +:+
  two_digits ((t `div` 60) `mod` 60) +:+ ":" +:+
  two_digits (t `mod` 60).

(** *** Direct message relay *)

Inductive error :=
  | ErrDb                       (* [fmt.Errorf("db: %w", err)] *)
  | ErrNew (text : string).     (* [errors.New(text)] *)

Definition color_of (sender : string) : string :=
  if decide (sender = zohaibUser) then cyan else green.

Definition chat_line (ts from text : string) : string :=
  "[" +:+ ts +:+ "] " +:+ from +:+ ": " +:+ text.

Definition missed_line (r : message) : string :=
  "[missed " +:+ hhmmss (m_ts r) +:+ "] " +:+ m_sender r +:+ ": " +:+ m_text r.

Definition sendToPeer (e : env) (from text : string) : M (option error) :=
  let peer := peerOf from in
  (* persist first *)
  res ← db_insert e from peer text;
  match res with
  | None => ret (Some ErrDb)
  | Some id =>
    (* try deliver if online *)
    dst ← gets (λ s, clients s !! peer);
    match dst with
    | None => ret (Some (ErrNew "peer offline"))
    | Some d =>
      let ts := hhmmss (now e) in
      writeLine d (color_of from) (chat_line ts from text);;
      db_update e [id];;
      ret None
    end
  end.

Definition deliverUndelivered (e : env) (toUser : string) : M unit :=
  rows ← db_query e toUser;
  match rows with
  | None => ret tt
  | Some rows =>
    uc ← gets (λ s, clients s !! toUser);
    match uc with
    | None => ret tt
    | Some w =>
      (* the loop over [rows.Next()], which also collects [ids] and [count] *)
      for_range rows (λ r, writeLine w (color_of (m_sender r)) (missed_line r));;
      let ids := m_id <$> rows in
      let count := length rows in
      when (bool_decide (0 < count)) (
        writeLine w yellow ("You had " +:+ pretty count +:+ " offline message(s).");;
        (* mark delivered *)
        when (bool_decide (0 < length ids)) (db_update e ids))
    end
  end.

(** *** Video flow *)

Definition letters : string :=
  "abcdefghijklmnopqrstuvwxyzABCDEFGHIJKLMNOPQRSTUVWXYZ0123456789".

(** [rand.Intn(n)]: a number below [n], computed from the generator's
    next draw. *)
Definition Intn (n draw : nat) : nat := draw `mod` n.

(** [letters[i]]; an index out of range panics in Go and cannot occur here. *)
Definition letter_at (i : nat) : ascii :=
  default "000"%char (String.get i letters).

Definition generateSID (rnd : nat → nat) : string :=
  string_of_list_ascii
    ((λ i, letter_at (Intn (String.length letters) (rnd i))) <$> seq 0 12).

(** [if c := s.clients[who]; c != nil { writeLine(c.w, yellow, ..) .. }] *)
Definition notify (who : string) (lines : list string) : M unit :=
  c ← gets (λ s, clients s !! who);
  match c with
  | Some w => for_range lines (writeLine w yellow)
  | None => ret tt
  end.

Definition handleVideoRequest (requester : string) : M unit :=
  let callee := peerOf requester in
  calleeConn ← gets (λ s, clients s !! callee);
  match calleeConn with
  | None => notify requester ["Peer offline; cannot start video."]
  | Some cc =>
    (* record pending request *)
    modify (set_videoReq <[callee := requester]>);;
    writeLine cc yellow
      (requester +:+ " requests your camera. Type /acceptvideo or /declinevideo")
  end.

Definition base_url (e : env) : string :=
  if decide (VIDEO_BASE_URL e = "") then "http://127.0.0.1:5001"
  else VIDEO_BASE_URL e.

Definition senderURL (base sid : string) : string := base +:+ "/v/send?sid=" +:+ sid.
Definition viewerURL (base sid : string) : string := base +:+ "/v/view?sid=" +:+ sid.

Definition handleVideoAccept (e : env) (callee : string) : M unit :=
  req ← gets (λ s, videoReq s !! callee);
  match req with
  | None => notify callee ["No pending video request."]
  | Some requester =>
    modify (set_videoReq (delete callee));;
    let sid := generateSID (draws e) in
    let base := base_url e in
    (* Tell both sides *)
    notify callee ["Video approved. Open this URL to share your camera:";
                   senderURL base sid];;
    notify requester ["Open this URL to view the camera:";
                      viewerURL base sid]
  end.

Definition handleVideoDecline (callee : string) : M unit :=
  req ← gets (λ s, videoReq s !! callee);
  match req with
  | None => notify callee ["No pending video request."]
  | Some requester =>
    modify (set_videoReq (delete callee));;
    notify requester [callee +:+ " declined your video request."];;
    notify callee ["Declined."]
  end.

(** *** The connection handler [handle], after the credentials were checked *)

(** A successful [login]. *)
Definition handle_login (e : env) (c : conn) (username : string) : M unit :=
  attach username c;;
  writeLine c yellow ("Logged in as " +:+ username +:+ ". Type your message. /quit to exit.");;
  deliverUndelivered e username;;
  systemBroadcast username (username +:+ " joined.");;
  writePrompt c username.

(** A regular message line. *)
Definition handle_message (e : env) (c : conn) (username line : string) : M unit :=
  err ← sendToPeer e username line;
  match err with
  | Some _ => writeLine c yellow "Peer is offline (message queued)."
  | None => ret tt
  end;;
  writePrompt c username.

(** The end of [handle]: the read loop was left by [/quit] or because
    [r.Scan()] failed; then the deferred [conn.Close()] runs. *)
Definition handle_disconnect (c : conn) (username : string) : M unit :=
  when (bool_decide (username ≠ "")) (
    detach username;;
    systemBroadcast username (username +:+ " left."));;
  conn_Close c.

(** *** Runs of the server

    The methods of [chatServer] and the pieces of [handle] that call them,
    each run to completion, in any order; [CFail] is the environment's move:
    the transport of a connection breaks. *)
Inductive call :=
  | CAttach (u : string) (c : conn)
  | CDetach (u : string)
  | CSend (e : env) (from text : string)
  | CDeliver (e : env) (u : string)
  | CBroadcast (exclude msg : string)
  | CVideoRequest (u : string)
  | CVideoAccept (e : env) (u : string)
  | CVideoDecline (u : string)
  | CLogin (e : env) (c : conn) (u : string)
  | CMessage (e : env) (c : conn) (u line : string)
  | CDisconnect (c : conn) (u : string)
  | CFail (c : conn).

Definition step (k : call) : M unit :=
  match k with
  | CAttach u c => attach u c
  | CDetach u => detach u
  | CSend e from text => _ ← sendToPeer e from text; ret tt
  | CDeliver e u => deliverUndelivered e u
  | CBroadcast x msg => systemBroadcast x msg
  | CVideoRequest u => handleVideoRequest u
  | CVideoAccept e u => handleVideoAccept e u
  | CVideoDecline u => handleVideoDecline u
  | CLogin e c u => handle_login e c u
  | CMessage e c u line => handle_message e c u line
  | CDisconnect c u => handle_disconnect c u
  | CFail c => modify (set_closed (λ d, {[c]} ∪ d))
  end.

Definition run (ks : list call) : M unit := for_range ks step.

(** The count of registry entries held under one identity. *)
Definition entries_of (u : string) (s : chatServer) : nat :=
  length (filter (λ uc, uc.1 = u) (map_to_list (clients s))).


(** *** Vocabulary of the statements *)

(** The effect of writing [data] to [w] in state [s]. *)
Definition wrote (s : chatServer) (w : conn) (data : string) : event :=
  EvWrite w data (bool_decide (w ∉ closed s)).

(** What [writeLine] sends. *)
Definition line (color text : string) : string :=
  color +:+ text +:+ reset +:+ crlf.

(** The row [sendToPeer] inserts. *)
Definition new_row (e : env) (s : chatServer) (from text : string) : message :=
  Message (next_id (db s)) from (peerOf from) text (now e) false.

(** One "missed" line per row, in the order of the rows. *)
Definition backlog_writes (s : chatServer) (w : conn) (rows : list message) : list event :=
  (λ r, wrote s w (line (color_of (m_sender r)) (missed_line r))) <$> rows.

Definition ts_le (a b : message) : Prop := m_ts a ≤ m_ts b.

(** How the table evolves: rows are appended with a fresh id and
    [delivered=0], or flagged delivered; nothing else. *)
Inductive db_step : list message → list message → Prop :=
  | db_step_refl d : db_step d d
  | db_step_insert d row :
      m_id row = next_id d → m_delivered row = false → db_step d (d ++ [row])
  | db_step_mark d ids : db_step d (mark_delivered ids d)
  | db_step_trans d1 d2 d3 : db_step d1 d2 → db_step d2 d3 → db_step d1 d3.

(** Every action of the server moves the table along [db_step]. *)
Definition db_steps {A} (m : M A) : Prop :=
  ∀ s, db_step (db s) (db (state_of (m s))).

(** The message [id] was handed out and every row carrying it is flagged
    delivered. *)
Definition settled (id : Z) (rows : list message) : Prop :=
  (id < next_id rows)%Z ∧ ∀ m, m ∈ rows → m_id m = id → m_delivered m = true.


End Chat.

(** ** The signaling server ([video/]) *)

Module Signal.

(** [json.RawMessage]: the bytes of a JSON value, never looked into. *)
Abbreviation raw := string.

Record hello := Hello {
  Role : string;      (* "sender" or "viewer" *)
  SID : string
}.

Record msg := Msg {
  Type_ : string;     (* the field [Type]: "offer", "answer", "ice" *)
  SDP : string;       (* for offer/answer *)
  Cand : raw          (* for ice *)
}.

Record endpoint := Endpoint {
  (* live connections (nil until attached) *)
  sender : option conn;
  viewer : option conn;
  (* queued state when the counterpart isn't attached yet *)
  offer : option string;
  answer : option string;
  iceFromSender : list raw;
  iceFromViewer : list raw
}.

(** [&endpoint{}] *)
Definition new_endpoint : endpoint := Endpoint None None None None [] [].

Definition set_sender (v : option conn) (ep : endpoint) :=
  Endpoint v (viewer ep) (offer ep) (answer ep) (iceFromSender ep) (iceFromViewer ep).
Definition set_viewer (v : option conn) (ep : endpoint) :=
  Endpoint (sender ep) v (offer ep) (answer ep) (iceFromSender ep) (iceFromViewer ep).
Definition set_offer (v : option string) (ep : endpoint) :=
  Endpoint (sender ep) (viewer ep) v (answer ep) (iceFromSender ep) (iceFromViewer ep).
Definition set_answer (v : option string) (ep : endpoint) :=
  Endpoint (sender ep) (viewer ep) (offer ep) v (iceFromSender ep) (iceFromViewer ep).
Definition set_iceFromSender (v : list raw) (ep : endpoint) :=
  Endpoint (sender ep) (viewer ep) (offer ep) (answer ep) v (iceFromViewer ep).
Definition set_iceFromViewer (v : list raw) (ep : endpoint) :=
  Endpoint (sender ep) (viewer ep) (offer ep) (answer ep) (iceFromSender ep) v.

(** [server]: the session table.  [closed] is the state of the network, as
    for the chat server. *)
Record server := Server {
  sessions : gmap string endpoint;
  closed : gset conn
}.

(** What a goroutine sees between [ep.mu.Lock()] and [ep.mu.Unlock()]: the
    endpoint behind its pointer, and the network. *)
Record held := Held {
  ep : endpoint;
  dead : gset conn
}.

Definition on_ep (f : endpoint → endpoint) (h : held) : held :=
  Held (f (ep h)) (dead h).

(** What a read on a connection yields: an error, or a frame together with
    what [json.Unmarshal] makes of it ([None] when the frame does not parse;
    a field the frame lacks is left empty). *)
Inductive incoming (A : Type) :=
  | ReadFailed
  | Received (data : string) (decoded : option A).
Arguments ReadFailed {A}.
Arguments Received {A} data decoded.

Inductive event :=
  | EvWriteJSON (c : conn) (m : msg) (ok : bool)           (* [c.WriteJSON(m)] *)
  | EvWriteMessage (c : conn) (data : string) (ok : bool)  (* [c.WriteMessage(TextMessage, data)] *)
  | EvClose (c : conn).                                    (* [c.Close()] *)

(** Actions of a handler, and actions under the lock of an endpoint. *)
Abbreviation M := (@act server event).
Abbreviation L := (@act held event).

Local Open Scope act_scope.

Definition WriteJSON (c : conn) (m : msg) : L unit :=
  d ← gets dead;
  emit (EvWriteJSON c m (bool_decide (c ∉ d))).

Definition Close_locked (c : conn) : L unit :=
  emit (EvClose c);;
  modify (λ h, Held (ep h) ({[c]} ∪ dead h)).

Definition WriteMessage (c : conn) (data : string) : M unit :=
  d ← gets closed;
  emit (EvWriteMessage c data (bool_decide (c ∉ d))).

Definition Close (c : conn) : M unit :=
  emit (EvClose c);;
  modify (λ s, Server (sessions s) ({[c]} ∪ closed s)).

(** [ep.mu.Lock(); body; ep.mu.Unlock()] for the endpoint of session [sid].
    A goroutine holds the pointer it got from [getOrCreate]; the table never
    drops or replaces an entry, so the pointer is the entry of [sid]. *)
Definition with_lock {A} (sid : string) (body : L A) : M A :=
  λ s, let r := body (Held (default new_endpoint (sessions s !! sid)) (closed s)) in
       (result r,
        Server (alter (λ _, ep (state_of r)) sid (sessions s)) (dead (state_of r)),
        effects r).

Definition getOrCreate (sid : string) : M unit :=
  e ← gets (λ s, sessions s !! sid);
  match e with
  | None => modify (λ s, Server (<[sid := new_endpoint]> (sessions s)) (closed s))
  | Some _ => ret tt
  end.

(** [ReadJSON]: a read error or a frame that does not parse is an error. *)
Definition ReadJSON {A} (inp : incoming A) : option A :=
  match inp with
  | ReadFailed => None
  | Received _ decoded => decoded
  end.

(** The first message is turned away when
    [(hi.Role != "sender" && hi.Role != "viewer") || hi.SID == ""]. *)
Definition hello_bad (hi : hello) : bool :=
  negb (bool_decide (Role hi = "sender")) && negb (bool_decide (Role hi = "viewer"))
  || bool_decide (SID hi = "").

(** [ws] up to the start of the relay goroutine: the first message must be
    [hello]; then the connection is attached and what was queued for its
    role is delivered.  The result is the [(role, sid)] the relay loop is
    started with, or [None] when the connection was turned away. *)
Definition ws (c : conn) (first : incoming hello) : M (option (string * string)) :=
  match first with
  | ReadFailed => Close c;; ret None
  | Received _ None => Close c;; ret None
  | Received _ (Some hi) =>
    if hello_bad hi then Close c;; ret None
    else
      getOrCreate (SID hi);;
      (* Attach this connection *)
      with_lock (SID hi) (
        if bool_decide (Role hi = "sender") then
          old ← gets (λ h, sender (ep h));
          match old with Some o => Close_locked o | None => ret tt end;;
          modify (on_ep (set_sender (Some c)));;
          (* If viewer already sent an answer or ICE, deliver them now *)
          a ← gets (λ h, answer (ep h));
          match a with
          | Some sdp => WriteJSON c (Msg "answer" sdp "");; modify (on_ep (set_answer None))
          | None => ret tt
          end;;
          cands ← gets (λ h, iceFromViewer (ep h));
          for_range cands (λ cand, WriteJSON c (Msg "ice" "" cand));;
          modify (on_ep (set_iceFromViewer []))
        else (* viewer *)
          old ← gets (λ h, viewer (ep h));
          match old with Some o => Close_locked o | None => ret tt end;;
          modify (on_ep (set_viewer (Some c)));;
          (* If sender already sent an offer or ICE, deliver them now *)
          o ← gets (λ h, offer (ep h));
          match o with
          | Some sdp => WriteJSON c (Msg "offer" sdp "");; modify (on_ep (set_offer None))
          | None => ret tt
          end;;
          cands ← gets (λ h, iceFromSender (ep h));
          for_range cands (λ cand, WriteJSON c (Msg "ice" "" cand));;
          modify (on_ep (set_iceFromSender [])));;
      ret (Some (Role hi, SID hi))
  end.

(** The deferred function of the relay goroutine. *)
Definition relay_exit (role sid : string) (c : conn) : M unit :=
  with_lock sid (
    s ← gets (λ h, sender (ep h));
    when (bool_decide (role = "sender") && bool_decide (s = Some c))
      (modify (on_ep (set_sender None)));;
    v ← gets (λ h, viewer (ep h));
    when (bool_decide (role = "viewer") && bool_decide (v = Some c))
      (modify (on_ep (set_viewer None))));;
  Close c.

(** One turn of the relay loop; [false] when the loop was left (and the
    deferred function has run). *)
Definition relay (role sid : string) (c : conn) (inp : incoming msg) : M bool :=
  match ReadJSON inp with
  | None => relay_exit role sid c;; ret false
  | Some m =>
    with_lock sid (
      dst ← gets (λ h, if bool_decide (role = "sender") then viewer (ep h) else sender (ep h));
      if bool_decide (Type_ m = "offer") then
        (* only valid from sender -> viewer *)
        when (bool_decide (role = "sender"))
          match dst with
          | Some d => WriteJSON d m
          | None => modify (on_ep (set_offer (Some (SDP m))))  (* queue until viewer attaches *)
          end
      else if bool_decide (Type_ m = "answer") then
        (* only valid from viewer -> sender *)
        when (bool_decide (role = "viewer"))
          match dst with
          | Some d => WriteJSON d m
          | None => modify (on_ep (set_answer (Some (SDP m)))) (* queue until sender attaches *)
          end
      else if bool_decide (Type_ m = "ice") then
        match dst with
        | Some d => WriteJSON d m
        | None =>
          (* queue ICE depending on direction *)
          if bool_decide (role = "sender") then
            modify (on_ep (λ e, set_iceFromSender (iceFromSender e ++ [Cand m]) e))
          else
            modify (on_ep (λ e, set_iceFromViewer (iceFromViewer e ++ [Cand m]) e))
        end
      else ret tt (* ignore *));;
    ret true
  end.

(** The relay loop over the frames a connection sends, as long as it runs. *)
Fixpoint relay_loop (role sid : string) (c : conn) (inps : list (incoming msg)) : M bool :=
  match inps with
  | [] => ret true
  | inp :: rest =>
    go ← relay role sid c inp;
    if go then relay_loop role sid c rest else ret false
  end.

(** *** The fragment [video/singnaling.go]

    An earlier [ws] and relay loop over the same [endpoint], which cannot be
    built together with the one above (both declare [ws], [msg] and
    [getOrCreate]): nothing is queued, and every frame that parses is
    forwarded as it came. *)
Definition ws_plain (c : conn) (first : incoming hello) : M (option (string * string)) :=
  match first with
  | ReadFailed => Close c;; ret None
  | Received _ None => Close c;; ret None
  | Received _ (Some hi) =>
    if hello_bad hi then Close c;; ret None
    else
      getOrCreate (SID hi);;
      with_lock (SID hi) (
        if bool_decide (Role hi = "sender") then
          old ← gets (λ h, sender (ep h));
          match old with Some o => Close_locked o | None => ret tt end;;
          modify (on_ep (set_sender (Some c)))
        else
          old ← gets (λ h, viewer (ep h));
          match old with Some o => Close_locked o | None => ret tt end;;
          modify (on_ep (set_viewer (Some c))));;
      ret (Some (Role hi, SID hi))
  end.

Definition relay_plain (role sid : string) (c : conn) (inp : incoming msg) : M bool :=
  match inp with
  | ReadFailed => relay_exit role sid c;; ret false
  | Received _ None => ret true   (* [continue] *)
  | Received b (Some _) =>
    dst ← with_lock sid
             (gets (λ h, if bool_decide (role = "sender") then viewer (ep h) else sender (ep h)));
    match dst with
    | Some d => WriteMessage d b
    | None => ret tt
    end;;
    ret true
  end.

(** *** Vocabulary of the statements *)

Definition wrote (d : gset conn) (c : conn) (m : msg) : event :=
  EvWriteJSON c m (bool_decide (c ∉ d)).

(** The session [sid] is in the state described by [e]. *)
Definition session (s : server) (sid : string) (e : endpoint) : Prop :=
  sessions s !! sid = Some e.

(** The state with the endpoint of [sid] replaced. *)
Definition with_ep (s : server) (sid : string) (e : endpoint) : server :=
  Server (<[sid := e]> (sessions s)) (closed s).

(** The effect of closing the previous holder of a role slot. *)
Definition closing (old : option conn) : list event :=
  match old with Some o => [EvClose o] | None => [] end.

Definition closed_with (old : option conn) (d : gset conn) : gset conn :=
  match old with Some o => {[o]} ∪ d | None => d end.

(** What the deferred function of the relay does to the endpoint. *)
Definition released (role : string) (c : conn) (e : endpoint) : endpoint :=
  if bool_decide (role = "sender") && bool_decide (sender e = Some c)
  then set_sender None e
  else if bool_decide (role = "viewer") && bool_decide (viewer e = Some c)
  then set_viewer None e
  else e.

(** The frame [{"type":"offer"}], which has no [sdp]. *)
Definition dq : string := String "034"%char "".
Definition offer_without_sdp : string :=
  "{" +:+ dq +:+ "type" +:+ dq +:+ ":" +:+ dq +:+ "offer" +:+ dq +:+ "}".

(** The relay loop was left and the connection closed. *)
Definition terminated (r : bool * server * list event) (c : conn) : Prop :=
  result r = false ∧ EvClose c ∈ effects r.

(** What one turn of the relay does with a frame that parses: the endpoint
    afterwards and the writes. *)
Definition routed (role : string) (m : msg) (e : endpoint) (d : gset conn)
    : endpoint * list event :=
  let dst := if bool_decide (role = "sender") then viewer e else sender e in
  if bool_decide (Type_ m = "offer") then
    if bool_decide (role = "sender") then
      match dst with
      | Some x => (e, [wrote d x m])
      | None => (set_offer (Some (SDP m)) e, [])
      end
    else (e, [])
  else if bool_decide (Type_ m = "answer") then
    if bool_decide (role = "viewer") then
      match dst with
      | Some x => (e, [wrote d x m])
      | None => (set_answer (Some (SDP m)) e, [])
      end
    else (e, [])
  else if bool_decide (Type_ m = "ice") then
    match dst with
    | Some x => (e, [wrote d x m])
    | None =>
      if bool_decide (role = "sender")
      then (set_iceFromSender (iceFromSender e ++ [Cand m]) e, [])
      else (set_iceFromViewer (iceFromViewer e ++ [Cand m]) e, [])
    end
  else (e, []).

(** The messages a [ws] attach delivers from the queue. *)
Definition flushed (d : gset conn) (c : conn) (type : string)
    (sdp : option string) (cands : list raw) : list event :=
  match sdp with Some x => [wrote d c (Msg type x "")] | None => [] end
  ++ ((λ cand, wrote d c (Msg "ice" "" cand)) <$> cands).

End Signal.

(** ** The rest of the chat server: users, history and the line loop *)

Module Handler.
Import Chat.
Local Open Scope act_scope.

(** The library functions the handler calls, as parameters: [strings.Fields]
    and [strings.TrimSpace] (which know Unicode white space),
    [strconv.Atoi] ([None] is its error), and the two functions of
    [bcrypt]. *)
Record golib := GoLib {
  Fields : string → list string;
  TrimSpace : string → string;
  Atoi : string → option Z;
  GenerateFromPassword : string → string;
  CompareHashAndPassword : string → string → bool   (* [true] is a [nil] error *)
}.

(** *** The [users] table: username to password hash *)

Definition defaults : list (string * string) :=
  [(bilalUser, "ChangeMeBilal1!"); (zohaibUser, "ChangeMeZohaib1!")].

(** What the database answers during [seedUsers]: whether the SELECT and
    the INSERT for a name go through. *)
Record seed_env := SeedEnv {
  select_ok : string → bool;
  insert_user_ok : string → bool
}.

(** Actions on the table that log lines. *)
Abbreviation S := (@act (gmap string string) string).

Definition seeded_line (name : string) : string :=
  "Seeded user " +:+ name +:+ " with default password (please change)".

(** The loop of [seedUsers]; the result is [true] for a [nil] error.  A
    failed SELECT leaves [exists] at 0; the INSERT fails on a name that is
    already there ([username] is the primary key). *)
Fixpoint seed_range (G : golib) (q : seed_env) (ds : list (string * string)) : S bool :=
  match ds with
  | [] => ret true
  | d :: rest =>
    row ← gets (λ users : gmap string string, users !! d.1);
    if select_ok q d.1 && bool_decide (is_Some row) then seed_range G q rest  (* [continue] *)
    else
      let h := GenerateFromPassword G d.2 in
      if insert_user_ok q d.1 && bool_decide (row = None) then
        modify (λ users : gmap string string, <[d.1 := h]> users);;
        emit (seeded_line d.1);;
        seed_range G q rest
      else ret false
  end.

Definition seedUsers (G : golib) (q : seed_env) : S bool := seed_range G q defaults.

(** [checkPassword]: any error of the query, a missing row included, is a
    refusal. *)
Definition checkPassword (G : golib) (e : env) (users : gmap string string)
    (username password : string) : bool :=
  if query_ok e then
    match users !! username with
    | Some hash => CompareHashAndPassword G hash password
    | None => false
    end
  else false.

(** *** History *)

Definition between_users (m : message) : bool :=
  (bool_decide (m_sender m = bilalUser) || bool_decide (m_sender m = zohaibUser))
  && (bool_decide (m_recipient m = bilalUser) || bool_decide (m_recipient m = zohaibUser)).

(** [ORDER BY ts DESC]; SQL leaves the order of rows with equal [ts] open,
    here they keep their table order. *)
Fixpoint insert_by_ts_desc (m : message) (l : list message) : list message :=
  match l with
  | [] => [m]
  | x :: l' => if decide (m_ts x < m_ts m) then m :: l
               else x :: insert_by_ts_desc m l'
  end.

Definition order_by_ts_desc (l : list message) : list message :=
  foldl (λ acc m, insert_by_ts_desc m acc) [] l.

(** [LIMIT ?]: a negative limit is no limit. *)
Definition limit (n : Z) (l : list message) : list message :=
  if decide (n < 0)%Z then l else take (Z.to_nat n) l.

(** [SELECT .. FROM messages WHERE sender IN ('bilal','zohaib')
    AND recipient IN ('bilal','zohaib') ORDER BY ts DESC LIMIT ?] *)
Definition select_history (n : Z) (rows : list message) : list message :=
  limit n (order_by_ts_desc (filter (λ m, between_users m = true) rows)).

Definition history_line (r : message) : string :=
  chat_line (hhmmss (m_ts r)) (m_sender r) (m_text r).

(** [printHistory] drops the error of the query; with an error [rows] is
    [nil] and [rows.Next()] panics: the result is [None]. *)
Definition printHistory (e : env) (w : conn) (n : Z) : M (option unit) :=
  if query_ok e then
    stack ← gets (λ s, select_history n (db s));
    (* [for i := len(stack)-1; i>=0; i--] *)
    for_range (reverse stack)
      (λ r, writeLine w (color_of (m_sender r)) (history_line r));;
    ret (Some tt)
  else ret None.

(** *** The loop of [handle] *)

(** [strings.Join] *)
Definition Join (elems : list string) (sep : string) : string :=
  match elems with
  | [] => ""
  | x :: rest => foldl (λ acc y, acc +:+ sep +:+ y) x rest
  end.

(** The [n] of [/history [N]]. *)
Definition history_limit (G : golib) (line : string) : Z :=
  let parts := Fields G line in
  if decide (length parts = 2) then
    match Atoi G (nth 1 parts "") with
    | Some v => if bool_decide (0 < v)%Z && bool_decide (v ≤ 1000)%Z then v else 50%Z
    | None => 50%Z
    end
  else 50%Z.

(** How one turn of the loop ends: [continue], [break], or a panic. *)
Inductive flow := Continue | Break | Panic.

(** A line while [username == ""]; the result is the new [username]. *)
Definition handle_prelogin (G : golib) (users : gmap string string)
    (e : env) (c : conn) (line : string) : M string :=
  if String.prefix "login " line then
    let parts := Fields G line in
    if decide (length parts < 3) then
      writeLine c yellow "Usage: login <username> <password>";;
      write c yellow ">> ";;
      ret ""
    else
      let u := nth 1 parts "" in
      let p := Join (drop 2 parts) " " in
      if decide (u ≠ bilalUser ∧ u ≠ zohaibUser) then
        writeLine c yellow "Only bilal and zohaib are allowed.";;
        write c yellow ">> ";;
        ret ""
      else if negb (checkPassword G e users u p) then
        writeLine c yellow "Invalid credentials.";;
        write c yellow ">> ";;
        ret ""
      else
        handle_login e c u;;
        ret u
  else
    writeLine c yellow "Please login first:  login <username> <password>";;
    write c yellow ">> ";;
    ret "".

(** A line after login. *)
Definition handle_line (G : golib) (e : env) (c : conn) (username line : string) : M flow :=
  if decide (line = "/quit") then ret Break
  else if String.prefix "/history" line then
    r ← printHistory e c (history_limit G line);
    match r with
    | None => ret Panic
    | Some _ => writePrompt c username;; ret Continue
    end
  else if decide (line = "/video") then
    handleVideoRequest username;; writePrompt c username;; ret Continue
  else if decide (line = "/acceptvideo") then
    handleVideoAccept e username;; writePrompt c username;; ret Continue
  else if decide (line = "/declinevideo") then
    handleVideoDecline username;; writePrompt c username;; ret Continue
  else
    (* Regular message *)
    handle_message e c username line;; ret Continue.

(** [for r.Scan() { .. }] over the lines the connection sends, each with
    what the environment answers while it is handled; the result is the
    [username] when the loop is left, [None] after a panic. *)
Fixpoint handle_loop (G : golib) (users : gmap string string) (c : conn)
    (username : string) (inputs : list (env * string)) : M (option string) :=
  match inputs with
  | [] => ret (Some username)
  | (e, text) :: rest =>
    let line := TrimSpace G text in
    if decide (username = "") then
      u ← handle_prelogin G users e c line;
      handle_loop G users c u rest
    else
      f ← handle_line G e c username line;
      match f with
      | Continue => handle_loop G users c username rest
      | Break => ret (Some username)
      | Panic => ret None
      end
  end.

Definition greet (c : conn) : M unit :=
  writeLine c yellow "Welcome to VM Chat!";;
  writeLine c yellow "Login with:  login <username> <password>";;
  writeLine c yellow "Users: bilal, zohaib";;
  writeLine c yellow "Commands: /quit, /history [N], /video, /acceptvideo, /declinevideo";;
  write c yellow ">> ".

(** [handle]; [false] when it ended in a panic, which runs the deferred
    [conn.Close()] and nothing after the loop. *)
Definition handle (G : golib) (users : gmap string string) (c : conn)
    (inputs : list (env * string)) : M bool :=
  greet c;;
  r ← handle_loop G users c "" inputs;
  match r with
  | Some username => handle_disconnect c username;; ret true
  | None => conn_Close c;; ret false
  end.

(** What happens on the server: a call as before, or a whole connection. *)
Inductive activity :=
  | ACall (k : call)
  | AHandle (c : conn) (inputs : list (env * string)).

Definition live_step (G : golib) (users : gmap string string) (a : activity) : M unit :=
  match a with
  | ACall k => step k
  | AHandle c inputs => _ ← handle G users c inputs; ret tt
  end.

Definition live_run (G : golib) (users : gmap string string) (acts : list activity) : M unit :=
  for_range acts (live_step G users).

(** *** Vocabulary of the statements *)

(** A row is kept: nothing of it changes but the flag, from 0 to 1. *)
Definition kept (m m' : message) : Prop :=
  m' = m
  ∨ m' = Message (m_id m) (m_sender m) (m_recipient m) (m_text m) (m_ts m) true.

(** The table [d'] is the table [d] with its rows kept, in place, and rows
    added behind them. *)
Definition evolves (d d' : list message) : Prop :=
  ∃ olds newer, d' = olds ++ newer ∧ Forall2 kept d olds.

Definition ts_ge (a b : message) : Prop := m_ts b ≤ m_ts a.

(** A line the loop treats as a command. *)
Definition is_command (line : string) : Prop :=
  line = "/quit" ∨ String.prefix "/history" line = true
  ∨ line = "/video" ∨ line = "/acceptvideo" ∨ line = "/declinevideo".

End Handler.

(** ** The earlier chat server (the copy without a database) *)

Module ChatV0.
Import Chat.
Local Open Scope act_scope.

Definition detach (username : string) : M unit :=
  modify (set_clients (delete username)).

Definition sendToPeer (now : nat) (from text : string) : M (option error) :=
  let peer := peerOf from in
  dst ← gets (λ s, clients s !! peer);
  match dst with
  | None => ret (Some (ErrNew "peer offline"))
  | Some d =>
    let ts := hhmmss now in
    writeLine d (color_of from) (chat_line ts from text);;
    ret None
  end.

(** A line after login: an empty line only gets the prompt again. *)
Definition handle_line (now : nat) (c : conn) (username line : string) : M bool :=
  if decide (line = "/quit") then ret false
  else if decide (line = "") then writePrompt c username;; ret true
  else
    err ← sendToPeer now username line;
    match err with
    | Some _ => writeLine c yellow "Peer is offline."
    | None => ret tt
    end;;
    writePrompt c username;;
    ret true.

End ChatV0.

(** ** Runs of the signaling server *)

Module SignalRuns.
Import Signal.
Local Open Scope act_scope.

(** A connection as a whole: [ws], then the relay goroutine over the frames
    it sends. *)
Definition serve (c : conn) (first : incoming hello) (inps : list (incoming msg)) : M bool :=
  r ← ws c first;
  match r with
  | Some (role, sid) => relay_loop role sid c inps
  | None => ret false
  end.

(** The steps of the server in any order: a [ws] call, one turn of some
    relay loop, or the transport of a connection breaking. *)
Inductive call :=
  | CWs (c : conn) (first : incoming hello)
  | CRelay (role sid : string) (c : conn) (inp : incoming msg)
  | CFail (c : conn).

Definition step (k : call) : M unit :=
  match k with
  | CWs c first => _ ← ws c first; ret tt
  | CRelay role sid c inp => _ ← relay role sid c inp; ret tt
  | CFail c => modify (λ s, Server (sessions s) ({[c]} ∪ closed s))
  end.

Definition run (ks : list call) : M unit := for_range ks step.

(** Nothing is queued for a role that is attached. *)
Definition tidy (e : endpoint) : Prop :=
  (viewer e ≠ None → offer e = None ∧ iceFromSender e = [])
  ∧ (sender e ≠ None → answer e = None ∧ iceFromViewer e = []).

End SignalRuns.

(** ** Relations every step of a server keeps *)

Module Inv.

(** Every run of the action takes a state to one related by [R]. *)
Definition steps {St Ev A} (R : St → St → Prop) (m : @act St Ev A) : Prop :=
  ∀ s, R s (state_of (m s)).

(** The [messages] table is the same. *)
Definition same_table (s s' : Chat.chatServer) : Prop := Chat.db s' = Chat.db s.

(** No name is added to the registry but those of the two users. *)
Definition registry_within (s s' : Chat.chatServer) : Prop :=
  dom (Chat.clients s') ⊆ dom (Chat.clients s) ∪ {[Chat.bilalUser; Chat.zohaibUser]}.

(** No session is removed from the table. *)
Definition sessions_kept (s s' : Signal.server) : Prop :=
  dom (Signal.sessions s) ⊆ dom (Signal.sessions s').

(** The sessions other than [sid] are as they were. *)
Definition others_untouched (sid : string) (s s' : Signal.server) : Prop :=
  ∀ sid', sid' ≠ sid → Signal.sessions s' !! sid' = Signal.sessions s !! sid'.

(** If every session was tidy, every session still is. *)
Definition tidiness_kept (s s' : Signal.server) : Prop :=
  map_Forall (λ _, SignalRuns.tidy) (Signal.sessions s) →
  map_Forall (λ _, SignalRuns.tidy) (Signal.sessions s').

End Inv.

(** * Properties *)

(** ** Running actions *)

Module ActFacts.

Lemma bind_run {St Ev A B} (m : @act St Ev A) (k : A → @act St Ev B) s :
  bind m k s =
    (result (k (result (m s)) (state_of (m s))),
     state_of (k (result (m s)) (state_of (m s))),
     effects (m s) ++ effects (k (result (m s)) (state_of (m s)))).
Proof. reflexivity. Qed.

Lemma bind_gets {St Ev A B} (f : St → A) (k : A → @act St Ev B) s :
  bind (gets f) k s = k (f s) s.
Proof. unfold bind, gets. simpl. by destruct (k (f s) s) as [[??]?]. Qed.


Lemma bind_eq {St Ev A B} (m : @act St Ev A) (k : A → @act St Ev B) s a s' evs :
  m s = (a, s', evs) →
  bind m k s = (result (k a s'), state_of (k a s'), evs ++ effects (k a s')).
Proof. intros H. unfold bind. by rewrite H. Qed.

Lemma for_range_emit {St Ev A} (f : A → St → Ev) (body : A → @act St Ev unit) xs s :
  (∀ x s, body x s = (tt, s, [f x s])) →
  for_range xs body s = (tt, s, (λ x, f x s) <$> xs).
Proof.
  intros Hb. induction xs as [|x xs IH]; [done|].
  simpl. unfold bind. rewrite Hb. simpl. unfold bind in IH. by rewrite IH.
Qed.

End ActFacts.
Import ActFacts.

(** ** The chat server *)

Module ChatFacts.
Import Chat.
Local Open Scope act_scope.

Lemma writeLine_spec w color text s :
  writeLine w color text s = (tt, s, [wrote s w (line color text)]).
Proof. reflexivity. Qed.

Lemma writePrompt_spec w u s :
  writePrompt w u s = (tt, s, [wrote s w (promptSymbol u)]).
Proof. reflexivity. Qed.

Lemma for_range_writeLine {A} (w : conn) (col txt : A → string) xs s :
  for_range xs (λ x, writeLine w (col x) (txt x)) s
  = (tt, s, (λ x, wrote s w (line (col x) (txt x))) <$> xs).
Proof. by apply (for_range_emit (λ x s, wrote s w (line (col x) (txt x)))). Qed.


Lemma systemBroadcast_state x msg s : state_of (systemBroadcast x msg s) = s.
Proof.
  unfold systemBroadcast, bind, gets. simpl.
  induction (filter _ _) as [|uc l IH]; [done|]. simpl. done.
Qed.

Lemma attach_spec u c s :
  attach u c s =
    (tt,
     ChatServer (db s) (<[u := c]> (clients s)) (videoReq s)
       (match clients s !! u with Some o => {[o]} ∪ closed s | None => closed s end),
     match clients s !! u with Some o => [EvClose o] | None => [] end).
Proof. unfold attach, bind, gets. simpl. by destruct (clients s !! u). Qed.

Lemma detach_spec u s :
  detach u s = (tt, ChatServer (db s) (delete u (clients s)) (delete u (videoReq s)) (closed s), []).
Proof. reflexivity. Qed.

Lemma sendToPeer_spec e from text s :
  sendToPeer e from text s =
    if insert_ok e then
      match clients s !! peerOf from with
      | None =>
        (Some (ErrNew "peer offline"),
         set_db (λ d, d ++ [new_row e s from text]) s,
         [EvInsert (new_row e s from text)])
      | Some d =>
        (None,
         set_db (λ d, (if update_ok e then mark_delivered [next_id (db s)] else id)
                        (d ++ [new_row e s from text])) s,
         [EvInsert (new_row e s from text);
          wrote s d (line (color_of from) (chat_line (hhmmss (now e)) from text))]
         ++ (if update_ok e then [EvMark [next_id (db s)]] else []))
      end
    else (Some ErrDb, s, []).
Proof.
  unfold sendToPeer, db_insert, db_update, when, bind, gets, modify, emit, ret. simpl.
  destruct (insert_ok e); simpl; [|by destruct s].
  destruct (clients s !! peerOf from); simpl; [|done].
  destruct (update_ok e); simpl; done.
Qed.

Lemma deliverUndelivered_spec e u s :
  deliverUndelivered e u s =
    let rows := select_undelivered u (db s) in
    match query_ok e, clients s !! u with
    | true, Some w =>
      match rows with
      | [] => (tt, s, [])
      | _ :: _ =>
        (tt,
         (if update_ok e then set_db (mark_delivered (m_id <$> rows)) s else s),
         backlog_writes s w rows
         ++ [wrote s w (line yellow ("You had " +:+ pretty (length rows) +:+ " offline message(s)."))]
         ++ (if update_ok e then [EvMark (m_id <$> rows)] else []))
      end
    | _, _ => (tt, s, [])
    end.
Proof.
  unfold deliverUndelivered, db_query, bind, gets, ret. simpl.
  destruct (query_ok e); simpl; [|done].
  destruct (clients s !! u) as [w|]; simpl; [|done].
  rewrite (for_range_writeLine w (λ r, color_of (m_sender r)) missed_line). simpl.
  destruct (select_undelivered u (db s)) as [|r rows] eqn:E; simpl; [by destruct s|].
  unfold db_update, when, bind, emit, modify. simpl.
  destruct (update_ok e); simpl; [|by destruct s].
  done.
Qed.


(** ** The backlog query *)

Lemma insert_by_ts_perm m l : insert_by_ts m l ≡ₚ m :: l.
Proof.
  induction l as [|x l IH]; simpl; [done|].
  case_decide; [done|]. rewrite IH. apply Permutation_swap.
Qed.

Lemma order_by_ts_perm l : order_by_ts l ≡ₚ l.
Proof.
  unfold order_by_ts.
  assert (∀ acc, foldl (λ acc m, insert_by_ts m acc) acc l ≡ₚ acc ++ l) as H.
  { induction l as [|x l IH]; intros acc; simpl; [by rewrite app_nil_r|].
    rewrite IH, insert_by_ts_perm. simpl. apply Permutation_middle. }
  apply H.
Qed.

Lemma insert_by_ts_sorted m l :
  StronglySorted ts_le l → StronglySorted ts_le (insert_by_ts m l).
Proof.
  induction l as [|x l IH]; intros Hl; simpl.
  - repeat constructor.
  - apply StronglySorted_inv in Hl as [Hl Hx]. case_decide.
    + constructor; [by constructor|]. constructor; [unfold ts_le; lia|].
      eapply Forall_impl; [exact Hx|]. unfold ts_le. intros; lia.
    + constructor; [by apply IH|]. rewrite insert_by_ts_perm.
      constructor; [unfold ts_le; lia|done].
Qed.

Lemma order_by_ts_sorted l : StronglySorted ts_le (order_by_ts l).
Proof.
  unfold order_by_ts.
  assert (∀ acc, StronglySorted ts_le acc →
            StronglySorted ts_le (foldl (λ acc m, insert_by_ts m acc) acc l)) as H.
  { induction l as [|x l IH]; intros acc Hacc; simpl; [done|].
    by apply IH, insert_by_ts_sorted. }
  apply H. constructor.
Qed.

Lemma elem_of_select_undelivered u rows m :
  m ∈ select_undelivered u rows ↔
  m ∈ rows ∧ m_recipient m = u ∧ m_delivered m = false.
Proof.
  unfold select_undelivered. rewrite order_by_ts_perm, list_elem_of_filter.
  unfold undelivered_to. rewrite andb_true_iff, bool_decide_eq_true, negb_true_iff.
  tauto.
Qed.

Lemma select_undelivered_nil u rows :
  (∀ m, m ∈ rows → m_recipient m = u → m_delivered m = true) →
  select_undelivered u rows = [].
Proof.
  intros H. destruct (select_undelivered u rows) as [|m l] eqn:E; [done|].
  assert (m ∈ select_undelivered u rows) as Hm by (rewrite E; left).
  apply elem_of_select_undelivered in Hm as (Hin & Hr & Hd).
  rewrite (H m Hin Hr) in Hd. done.
Qed.

Lemma elem_of_mark_delivered ids rows m :
  m ∈ mark_delivered ids rows ↔
  ∃ m0, m0 ∈ rows ∧ m = (if decide (m_id m0 ∈ ids) then set_delivered m0 else m0).
Proof.
  unfold mark_delivered. rewrite list_elem_of_fmap.
  split; intros (m0 & H1 & H2); exists m0; done.
Qed.

Lemma select_after_mark u rows :
  select_undelivered u (mark_delivered (m_id <$> select_undelivered u rows) rows) = [].
Proof.
  apply select_undelivered_nil. intros m (m0 & Hin & ->)%elem_of_mark_delivered.
  case_decide as Hid; [done|]. intros Hr.
  destruct (m_delivered m0) eqn:Hd; [done|]. destruct Hid.
  apply list_elem_of_fmap. exists m0. split; [done|].
  by apply elem_of_select_undelivered.
Qed.

(** ** The table only grows and only gains delivered flags *)

Lemma next_id_app rows row :
  next_id (rows ++ [row]) = (1 + Z.max (m_id row) (next_id rows - 1))%Z.
Proof.
  unfold next_id. rewrite fmap_app, foldr_app. cbn [fmap list_fmap foldr].
  induction (m_id <$> rows) as [|x l IH]; cbn [foldr]; lia.
Qed.

Lemma next_id_mark ids rows : next_id (mark_delivered ids rows) = next_id rows.
Proof.
  unfold next_id, mark_delivered. rewrite <- list_fmap_compose. f_equal. f_equal.
  apply list_fmap_ext. intros ? m _. simpl. by case_decide.
Qed.

Lemma next_id_above rows m : m ∈ rows → (m_id m < next_id rows)%Z.
Proof.
  unfold next_id. induction 1; cbn [fmap list_fmap foldr] in *; lia.
Qed.

Lemma settled_step id d d' : db_step d d' → settled id d → settled id d'.
Proof.
  induction 1 as [d|d row Hid Hdel|d ids|d1 d2 d3 _ IH1 _ IH2]; intros [Hlt Hall].
  - done.
  - split; [rewrite next_id_app; lia|].
    intros m [Hm|Hm%list_elem_of_singleton]%elem_of_app Hm'; [by apply Hall|].
    subst m. lia.
  - split; [by rewrite next_id_mark|].
    intros m (m0 & Hin & ->)%elem_of_mark_delivered. case_decide; [done|]. by apply Hall.
  - by apply IH2, IH1.
Qed.

Lemma settled_not_selected id rows u m :
  settled id rows → m ∈ select_undelivered u rows → m_id m ≠ id.
Proof.
  intros [_ Hall] (Hin & _ & Hd)%elem_of_select_undelivered Hid.
  rewrite (Hall m Hin Hid) in Hd. done.
Qed.

Lemma db_steps_ret {A} (a : A) : db_steps (ret a).
Proof. intros s. constructor. Qed.

Lemma db_steps_gets {A} (f : chatServer → A) : db_steps (gets f).
Proof. intros s. constructor. Qed.

Lemma db_steps_emit ev : db_steps (emit ev).
Proof. intros s. constructor. Qed.

Lemma db_steps_bind {A B} (m : M A) (k : A → M B) :
  db_steps m → (∀ a, db_steps (k a)) → db_steps (bind m k).
Proof.
  intros Hm Hk s. eapply db_step_trans; [apply Hm|]. apply (Hk (result (m s))).
Qed.

Lemma db_steps_for_range {A} (xs : list A) (body : A → M unit) :
  (∀ x, db_steps (body x)) → db_steps (for_range xs body).
Proof.
  intros Hb. induction xs as [|x xs IH]; simpl; [apply db_steps_ret|].
  apply db_steps_bind; [apply Hb|done].
Qed.

Lemma db_steps_when b (m : M unit) : db_steps m → db_steps (when b m).
Proof. intros Hm. destruct b; [done|apply db_steps_ret]. Qed.

Lemma db_steps_set_clients f : db_steps (modify (set_clients f)).
Proof. intros s. constructor. Qed.

Lemma db_steps_set_videoReq f : db_steps (modify (set_videoReq f)).
Proof. intros s. constructor. Qed.

Lemma db_steps_set_closed f : db_steps (modify (set_closed f)).
Proof. intros s. constructor. Qed.

Lemma db_steps_insert e from peer text : db_steps (db_insert e from peer text).
Proof.
  intros s. unfold db_insert. destruct (insert_ok e); [|constructor].
  by apply db_step_insert.
Qed.

Lemma db_steps_update e ids : db_steps (db_update e ids).
Proof.
  intros s. unfold db_update. destruct (update_ok e); [|constructor].
  apply db_step_mark.
Qed.

Lemma db_steps_query e u : db_steps (db_query e u).
Proof. intros s. unfold db_query. destruct (query_ok e); constructor. Qed.

Create HintDb db_steps.
#[local] Hint Resolve db_steps_ret db_steps_gets db_steps_emit db_steps_when
  db_steps_set_clients db_steps_set_videoReq db_steps_set_closed
  db_steps_insert db_steps_update db_steps_query : db_steps.

Ltac db_steps :=
  repeat first
    [ progress auto with db_steps
    | apply db_steps_bind; [|intros ?]
    | apply db_steps_for_range; intros ?
    | apply db_steps_when
    | match goal with |- db_steps (match ?x with _ => _ end) => destruct x end ].

Lemma db_steps_conn_write c d : db_steps (conn_write c d).
Proof. unfold conn_write. db_steps. Qed.
#[local] Hint Resolve db_steps_conn_write : db_steps.

Lemma db_steps_writeLine c col t : db_steps (writeLine c col t).
Proof. unfold writeLine. db_steps. Qed.

Lemma db_steps_writePrompt c u : db_steps (writePrompt c u).
Proof. unfold writePrompt. db_steps. Qed.
#[local] Hint Resolve db_steps_writeLine db_steps_writePrompt : db_steps.

Lemma db_steps_conn_Close c : db_steps (conn_Close c).
Proof. unfold conn_Close. db_steps. Qed.

Lemma db_steps_notify who ls : db_steps (notify who ls).
Proof. unfold notify. db_steps. Qed.
#[local] Hint Resolve db_steps_conn_Close db_steps_notify : db_steps.

Lemma db_steps_attach u c : db_steps (attach u c).
Proof. unfold attach. db_steps. Qed.

Lemma db_steps_detach u : db_steps (detach u).
Proof. unfold detach. db_steps. Qed.

Lemma db_steps_systemBroadcast x msg : db_steps (systemBroadcast x msg).
Proof. unfold systemBroadcast. db_steps. Qed.

Lemma db_steps_sendToPeer e from text : db_steps (sendToPeer e from text).
Proof. unfold sendToPeer. db_steps. Qed.

Lemma db_steps_deliverUndelivered e u : db_steps (deliverUndelivered e u).
Proof. unfold deliverUndelivered. db_steps. Qed.

Lemma db_steps_handleVideoRequest u : db_steps (handleVideoRequest u).
Proof. unfold handleVideoRequest. db_steps. Qed.

Lemma db_steps_handleVideoAccept e u : db_steps (handleVideoAccept e u).
Proof. unfold handleVideoAccept. db_steps. Qed.

Lemma db_steps_handleVideoDecline u : db_steps (handleVideoDecline u).
Proof. unfold handleVideoDecline. db_steps. Qed.

#[local] Hint Resolve db_steps_attach db_steps_detach db_steps_systemBroadcast
  db_steps_sendToPeer db_steps_deliverUndelivered db_steps_handleVideoRequest
  db_steps_handleVideoAccept db_steps_handleVideoDecline : db_steps.

Lemma db_steps_step k : db_steps (step k).
Proof.
  destruct k; simpl; unfold handle_login, handle_message, handle_disconnect; db_steps.
Qed.

Lemma db_steps_run ks : db_steps (run ks).
Proof. apply db_steps_for_range, db_steps_step. Qed.

Lemma filter_none {A} (P : A → Prop) `{∀ x, Decision (P x)} (l : list A) :
  (∀ x, x ∈ l → ¬ P x) → filter P l = [].
Proof.
  induction l as [|a l IH]; intros Hl; [done|].
  rewrite filter_cons_False by (apply Hl; left).
  apply IH. intros x Hx. apply Hl. by right.
Qed.

Lemma entries_of_lookup u s :
  entries_of u s = match clients s !! u with Some _ => 1 | None => 0 end.
Proof.
  unfold entries_of. destruct (clients s !! u) as [v|] eqn:E.
  - rewrite <- (insert_delete_id (clients s) u v E).
    rewrite map_to_list_insert by apply lookup_delete_eq.
    rewrite filter_cons_True by done. simpl. f_equal.
    rewrite filter_none; [done|].
    intros [k x] Hx%elem_of_map_to_list Hk. simpl in *. subst k.
    by rewrite lookup_delete_eq in Hx.
  - rewrite filter_none; [done|].
    intros [k x] Hx%elem_of_map_to_list Hk. simpl in *. congruence.
Qed.

(** ** Presence registry *)

(** C9: [attach] on an identity that already has a connection closes the old
    connection, then stores the new one; the identity keeps exactly one
    registry entry, the other identities keep theirs, and in no later state
    does an identity have more than one entry. *)
Theorem attach_closes_old_and_keeps_one_entry (s : chatServer) (u : string) (old c : conn) :
  clients s !! u = Some old →
  effects (attach u c s) = [EvClose old] ∧
  old ∈ closed (state_of (attach u c s)) ∧
  clients (state_of (attach u c s)) !! u = Some c ∧
  (∀ v, v ≠ u → clients (state_of (attach u c s)) !! v = clients s !! v) ∧
  entries_of u (state_of (attach u c s)) = 1 ∧
  size (clients (state_of (attach u c s))) = size (clients s) ∧
  (∀ ks v, entries_of v (state_of (run ks (state_of (attach u c s)))) ≤ 1).
Proof.
  intros Hold. rewrite attach_spec, Hold. unfold effects, state_of.
  cbn [fst snd clients closed]. split_and!.
  - done.
  - set_solver.
  - apply lookup_insert_eq.
  - intros v Hv. by apply lookup_insert_ne.
  - rewrite entries_of_lookup. cbn [clients]. by rewrite lookup_insert_eq.
  - by apply map_size_insert_Some.
  - intros ks v. rewrite entries_of_lookup. destruct (_ !! v); lia.
Qed.

Lemma attach_closes_old_witness :
  effects (attach "bilal" 2 (ChatServer [] {["bilal" := 1]} ∅ ∅)) = [EvClose 1].
Proof.
  apply (attach_closes_old_and_keeps_one_entry
           (ChatServer [] {["bilal" := 1]} ∅ ∅) "bilal" 1 2).
  reflexivity.
Defined.

(** C1, as the code has it: [detach] deletes the registry entry of the
    identity whoever holds it, and the pending request for it.  After a
    takeover ([c2] replaced [c1]) the handler of [c1] ends and its [detach]
    removes the entry of [c2]. *)
Theorem detach_drops_newer_connection (s : chatServer) (u : string) (c1 c2 : conn) :
  let s2 := state_of ((attach u c1;; attach u c2) s) in
  let s2' := state_of ((attach bilalUser c1;; attach bilalUser c2) s) in
  clients s2 !! u = Some c2 ∧
  clients (state_of (detach u s2)) !! u = None ∧
  videoReq (state_of (detach u s2)) !! u = None ∧
  clients s2' !! bilalUser = Some c2 ∧
  clients (state_of (handle_disconnect c1 bilalUser s2')) !! bilalUser = None.
Proof.
  intros s2 s2'.
  assert (∀ v, clients (state_of ((attach v c1;; attach v c2) s)) !! v = Some c2) as Hin.
  { intros v. rewrite bind_run, !attach_spec. unfold state_of, result.
    cbn [fst snd clients]. apply lookup_insert_eq. }
  split_and!.
  - apply Hin.
  - rewrite detach_spec. apply lookup_delete_eq.
  - rewrite detach_spec. apply lookup_delete_eq.
  - apply Hin.
  - unfold handle_disconnect, when.
    rewrite (bool_decide_eq_true_2 (bilalUser ≠ "")) by done.
    rewrite !bind_run. unfold state_of at 1. cbn [fst snd].
    unfold conn_Close. rewrite bind_run. unfold state_of at 1. cbn [fst snd].
    unfold modify at 1. unfold state_of at 1. cbn [fst snd set_closed clients].
    unfold result at 1. unfold state_of at 1. rewrite systemBroadcast_state.
    rewrite detach_spec. apply lookup_delete_eq.
Qed.

(** ** Direct message relay *)

(** C4: [sendToPeer] inserts the row, with [delivered=0], before it does
    anything else (with a failed insert it does nothing at all); when the
    peer has no connection it returns "peer offline", the row stays in the
    table undelivered and nothing else changes; [handle] then tells the
    sender. *)
Theorem sendToPeer_persists_first_and_reports_offline
    (e : env) (s : chatServer) (from text : string) :
  let row := new_row e s from text in
  m_delivered row = false ∧
  (effects (sendToPeer e from text s) = [] ∧ state_of (sendToPeer e from text s) = s
   ∨ ∃ rest, effects (sendToPeer e from text s) = EvInsert row :: rest
             ∧ ∀ ev, ev ∈ rest → ev ≠ EvInsert row) ∧
  (insert_ok e = true → clients s !! peerOf from = None →
     sendToPeer e from text s
       = (Some (ErrNew "peer offline"), set_db (λ d, d ++ [row]) s, [EvInsert row])
     ∧ row ∈ select_undelivered (peerOf from) (db (state_of (sendToPeer e from text s)))
     ∧ ∀ c, effects (handle_message e c from text s)
            = [EvInsert row;
               wrote s c (line yellow "Peer is offline (message queued).");
               wrote s c (promptSymbol from)]).
Proof.
  intros row. split; [done|]. split.
  - rewrite sendToPeer_spec. fold row. destruct (insert_ok e); [right|by left].
    destruct (clients s !! peerOf from) as [d|].
    + eexists. split; [reflexivity|]. intros ev Hev.
      destruct (update_ok e); cbn [app] in Hev;
        repeat (apply elem_of_cons in Hev as [->|Hev]; [done|]);
        by apply elem_of_nil in Hev.
    + exists []. split; [reflexivity|]. by intros ev Hev%elem_of_nil.
  - intros Hins Hoff.
    assert (sendToPeer e from text s
            = (Some (ErrNew "peer offline"), set_db (λ d, d ++ [row]) s, [EvInsert row])) as Hsend.
    { by rewrite sendToPeer_spec, Hins, Hoff. }
    split_and!; [done| |].
    + rewrite Hsend. unfold state_of. cbn [fst snd set_db db].
      apply elem_of_select_undelivered.
      split_and!; [apply elem_of_app; right; left|done|done].
    + intros c. unfold handle_message. rewrite !bind_run, Hsend.
      unfold effects, result, state_of. cbn [fst snd].
      rewrite writeLine_spec, writePrompt_spec. reflexivity.
Qed.

Lemma sendToPeer_persists_witness :
  sendToPeer (Env 9 true true true (λ _, 0) "") "bilal" "hi" (ChatServer [] ∅ ∅ ∅)
  = (Some (ErrNew "peer offline"),
     ChatServer [Message 1 "bilal" "zohaib" "hi" 9 false] ∅ ∅ ∅,
     [EvInsert (Message 1 "bilal" "zohaib" "hi" 9 false)]).
Proof.
  destruct (sendToPeer_persists_first_and_reports_offline
              (Env 9 true true true (λ _, 0) "") (ChatServer [] ∅ ∅ ∅) "bilal" "hi")
    as (_ & _ & H).
  destruct (H eq_refl eq_refl) as (H' & _). exact H'.
Defined.

Lemma deliverUndelivered_mark_ids (e : env) (u : string) (s : chatServer) ids :
  EvMark ids ∈ effects (deliverUndelivered e u s) →
  ids = m_id <$> select_undelivered u (db s).
Proof.
  rewrite deliverUndelivered_spec. cbn zeta.
  destruct (query_ok e), (clients s !! u) as [w|]; try (by intros ?%elem_of_nil).
  destruct (select_undelivered u (db s)) as [|r rows]; [by intros ?%elem_of_nil|].
  unfold effects. cbn [snd]. rewrite !elem_of_app.
  intros [(? & Hr & _)%list_elem_of_fmap|[Hr%list_elem_of_singleton|Hr]];
    [discriminate Hr|discriminate Hr|].
  destruct (update_ok e); [|by apply elem_of_nil in Hr].
  apply list_elem_of_singleton in Hr. by inversion Hr.
Qed.

(** C10: when the registry has a connection for the peer, [sendToPeer]
    flags the row delivered after the write, whether or not the write went
    through (the connection may be closed); from then on no backlog query
    returns that message, so no later flush replays it. *)
Theorem sendToPeer_marks_delivered_whatever_the_write
    (e : env) (s : chatServer) (from text : string) (d : conn) :
  insert_ok e = true → update_ok e = true →
  clients s !! peerOf from = Some d →
  let row := new_row e s from text in
  let s' := state_of (sendToPeer e from text s) in
  result (sendToPeer e from text s) = None ∧
  effects (sendToPeer e from text s)
    = [EvInsert row;
       EvWrite d (line (color_of from) (chat_line (hhmmss (now e)) from text))
         (bool_decide (d ∉ closed s));
       EvMark [m_id row]] ∧
  db s' = mark_delivered [m_id row] (db s ++ [row]) ∧
  set_delivered row ∈ db s' ∧
  (∀ m, m ∈ db s' → m_id m = m_id row → m_delivered m = true) ∧
  (∀ ks e' u,
     (∀ m, m ∈ select_undelivered u (db (state_of (run ks s'))) → m_id m ≠ m_id row) ∧
     (∀ ids, EvMark ids ∈ effects (deliverUndelivered e' u (state_of (run ks s')))
             → m_id row ∉ ids)).
Proof.
  intros Hins Hupd Hd row s'.
  assert (sendToPeer e from text s
          = (None, set_db (λ d, mark_delivered [m_id row] (d ++ [row])) s,
             [EvInsert row;
              wrote s d (line (color_of from) (chat_line (hhmmss (now e)) from text));
              EvMark [m_id row]])) as Hsend.
  { by rewrite sendToPeer_spec, Hins, Hd, Hupd. }
  assert (db s' = mark_delivered [m_id row] (db s ++ [row])) as Hdb.
  { subst s'. by rewrite Hsend. }
  assert (set_delivered row ∈ db s') as Hin.
  { rewrite Hdb. apply elem_of_mark_delivered. exists row.
    split; [apply elem_of_app; right; left|].
    rewrite decide_True; [done|left]. }
  assert (settled (m_id row) (db s')) as Hset.
  { split; [by apply (next_id_above _ _ Hin)|].
    rewrite Hdb. intros m (m0 & _ & ->)%elem_of_mark_delivered Hid.
    case_decide as Hm0; [done|]. destruct Hm0. rewrite Hid. left. }
  split_and!; try done; try (by rewrite Hsend).
  - apply Hset.
  - intros ks e' u.
    assert (settled (m_id row) (db (state_of (run ks s')))) as Hlater.
    { eapply settled_step; [apply db_steps_run|done]. }
    split.
    + intros m Hm. by eapply settled_not_selected.
    + intros ids ->%deliverUndelivered_mark_ids Hrow.
      apply list_elem_of_fmap in Hrow as (m & Hid & Hmin).
      by eapply settled_not_selected.
Qed.

Lemma sendToPeer_marks_delivered_witness :
  result (sendToPeer (Env 0 true true true (λ _, 0) "") "bilal" "hi"
            (ChatServer [] {["zohaib" := 4]} ∅ {[4]})) = None.
Proof.
  apply (sendToPeer_marks_delivered_whatever_the_write
           (Env 0 true true true (λ _, 0) "") (ChatServer [] {["zohaib" := 4]} ∅ {[4]})
           "bilal" "hi" 4); reflexivity.
Defined.

Lemma select_undelivered_sorted u rows :
  StronglySorted ts_le (select_undelivered u rows).
Proof. apply order_by_ts_sorted. Qed.

Lemma select_undelivered_perm u rows :
  select_undelivered u rows ≡ₚ filter (λ m, undelivered_to u m = true) rows.
Proof. apply order_by_ts_perm. Qed.

(** What [deliverUndelivered] does for an attached user when both of its
    statements succeed. *)
Lemma deliverUndelivered_attached (e : env) (s : chatServer) (u : string) (w : conn) :
  query_ok e = true → update_ok e = true → clients s !! u = Some w →
  let rows := select_undelivered u (db s) in
  deliverUndelivered e u s =
    match rows with
    | [] => (tt, s, [])
    | _ :: _ =>
      (tt, set_db (mark_delivered (m_id <$> rows)) s,
       backlog_writes s w rows ++
       [wrote s w (line yellow ("You had " +:+ pretty (length rows) +:+ " offline message(s)."));
        EvMark (m_id <$> rows)])
    end.
Proof. intros Hq Hu Hw. rewrite deliverUndelivered_spec, Hq, Hu, Hw. done. Qed.

Lemma deliverUndelivered_settles (e : env) (s : chatServer) (u : string) (w : conn) m :
  query_ok e = true → update_ok e = true → clients s !! u = Some w →
  m ∈ select_undelivered u (db s) →
  set_delivered m ∈ db (state_of (deliverUndelivered e u s)) ∧
  settled (m_id m) (db (state_of (deliverUndelivered e u s))).
Proof.
  intros Hq Hu Hw Hm. rewrite (deliverUndelivered_attached e s u w) by done.
  cbn zeta. destruct (select_undelivered u (db s)) as [|r rows] eqn:E;
    [by apply elem_of_nil in Hm|].
  unfold state_of. cbn [fst snd set_db db]. rewrite <- E in *. clear E.
  assert (m_id m ∈ m_id <$> select_undelivered u (db s)) as Hid.
  { apply list_elem_of_fmap. by exists m. }
  apply elem_of_select_undelivered in Hm as (Hin & _).
  assert (set_delivered m ∈ mark_delivered (m_id <$> select_undelivered u (db s)) (db s)) as H1.
  { apply elem_of_mark_delivered. exists m. by rewrite decide_True. }
  split; [done|]. split; [apply (next_id_above _ _ H1)|].
  intros m' (m0 & _ & ->)%elem_of_mark_delivered Hid'.
  case_decide as Hm0; [done|]. destruct Hm0. by rewrite Hid'.
Qed.

(** C3: a message sent while the recipient has no connection is in the
    backlog once the recipient attaches; [deliverUndelivered] takes the
    undelivered rows of the recipient in ascending [ts], writes one "missed"
    line for each in that order, then flags them all with one UPDATE; the
    next attach finds nothing to deliver and no later query returns them.
    Without a connection for the user, [deliverUndelivered] does nothing. *)
Theorem deliverUndelivered_flushes_backlog_once
    (e0 e e2 : env) (s : chatServer) (from text : string) (c c2 : conn) :
  insert_ok e0 = true → clients s !! peerOf from = None →
  query_ok e = true → update_ok e = true →
  let u := peerOf from in
  let row := new_row e0 s from text in
  let s1 := state_of (sendToPeer e0 from text s) in
  let s2 := state_of (attach u c s1) in
  let rows := select_undelivered u (db s2) in
  let s3 := state_of (deliverUndelivered e u s2) in
  let s4 := state_of (attach u c2 s3) in
  StronglySorted ts_le rows ∧
  rows ≡ₚ filter (λ m, m_recipient m = u ∧ m_delivered m = false) (db s2) ∧
  row ∈ rows ∧ length (filter (λ m, m_id m = m_id row) rows) = 1 ∧
  effects (deliverUndelivered e u s2)
    = backlog_writes s2 c rows ++
      [wrote s2 c (line yellow ("You had " +:+ pretty (length rows) +:+ " offline message(s)."));
       EvMark (m_id <$> rows)] ∧
  db s3 = mark_delivered (m_id <$> rows) (db s2) ∧
  (∀ m, m ∈ rows → set_delivered m ∈ db s3) ∧
  deliverUndelivered e2 u s4 = (tt, s4, []) ∧
  (∀ ks v m, m ∈ select_undelivered v (db (state_of (run ks s3))) → m_id m ∉ m_id <$> rows) ∧
  (∀ s' v, clients s' !! v = None → deliverUndelivered e v s' = (tt, s', [])).
Proof.
  intros Hins Hoff Hq Hupd u row s1 s2 rows s3 s4.
  assert (s1 = set_db (λ d, d ++ [row]) s) as Hs1.
  { subst s1. by rewrite sendToPeer_spec, Hins, Hoff. }
  assert (db s2 = db s ++ [row] ∧ clients s2 !! u = Some c ∧ closed s2 = closed s) as (Hdb2 & Hc2 & Hcl2).
  { subst s2. rewrite attach_spec, Hs1. unfold state_of. cbn [fst snd db clients closed set_db].
    change (clients s !! u = None) in Hoff. rewrite Hoff. split_and!; [done|apply lookup_insert_eq|done]. }
  assert (row ∈ rows) as Hrow.
  { apply elem_of_select_undelivered. rewrite Hdb2.
    split_and!; [apply elem_of_app; right; left|done|done]. }
  pose proof (deliverUndelivered_attached e s2 u c Hq Hupd Hc2) as Hdel.
  cbn zeta in Hdel. fold rows in Hdel.
  destruct rows as [|r0 rows0] eqn:Erows; [by apply elem_of_nil in Hrow|].
  rewrite <- Erows in *. clear Erows r0 rows0 .
  split_and!.
  - apply select_undelivered_sorted.
  - unfold rows. rewrite select_undelivered_perm.
    erewrite list_filter_iff; [done|]. intros m. unfold undelivered_to.
    rewrite andb_true_iff, bool_decide_eq_true, negb_true_iff. done.
  - done.
  - unfold rows. rewrite select_undelivered_perm, Hdb2, !filter_app.
    rewrite (filter_none _ (filter _ (db s))).
    + assert (undelivered_to u row = true) as Hund.
      { unfold undelivered_to, row, new_row. cbn [m_recipient m_delivered].
        by rewrite bool_decide_eq_true_2. }
      rewrite (filter_cons_True _ row) by done.
      rewrite (filter_cons_True _ row) by done. done.
    + intros m [_ Hm]%list_elem_of_filter Hid.
      apply next_id_above in Hm. rewrite Hid in Hm. simpl in Hm. lia.
  - by rewrite Hdel.
  - unfold s3. by rewrite Hdel.
  - intros m Hm. by apply (deliverUndelivered_settles e s2 u c m).
  - assert (select_undelivered u (db s4) = []) as Hnil.
    { unfold s4. rewrite attach_spec. unfold state_of at 1. cbn [fst snd db].
      unfold s3. rewrite Hdel. unfold state_of at 1. cbn [fst snd db set_db].
      apply select_after_mark. }
    rewrite deliverUndelivered_spec. cbn zeta. rewrite Hnil.
    by destruct (query_ok e2), (clients s4 !! u).
  - intros ks v m Hm (m' & Hid & Hm')%list_elem_of_fmap.
    destruct (deliverUndelivered_settles e s2 u c m' Hq Hupd Hc2 Hm') as [_ Hset].
    eapply settled_not_selected; [|exact Hm|exact Hid].
    eapply settled_step; [apply db_steps_run|exact Hset].
  - intros s' v Hv. rewrite deliverUndelivered_spec. cbn zeta. rewrite Hv.
    by destruct (query_ok e).
Qed.

Lemma deliverUndelivered_flushes_backlog_witness :
  let e := Env 5 true true true (λ _, 0) "" in
  let s := ChatServer [] ∅ ∅ ∅ in
  effects (deliverUndelivered e "zohaib"
             (state_of (attach "zohaib" 7 (state_of (sendToPeer e "bilal" "hi" s)))))
  = [EvWrite 7 (line green "[missed 00:00:05] bilal: hi") true;
     EvWrite 7 (line yellow "You had 1 offline message(s).") true;
     EvMark [1%Z]].
Proof.
  intros e s.
  pose proof (deliverUndelivered_flushes_backlog_once e e e s "bilal" "hi" 7 8
                eq_refl eq_refl eq_refl eq_refl) as H.
  cbn zeta in H. destruct H as (_ & _ & _ & _ & H & _). exact H.
Defined.

(** ** Call handshake *)







Lemma peerOf_involutive u :
  u = bilalUser ∨ u = zohaibUser → peerOf (peerOf u) = u.
Proof. by intros [->| ->]. Qed.

Lemma peerOf_ne u : peerOf u ≠ u.
Proof. unfold peerOf. case_decide; [by subst|done]. Qed.


End ChatFacts.

(** ** The signaling server *)

Module SignalFacts.
Import Signal.
Local Open Scope act_scope.

Lemma with_lock_spec {A} sid (body : L A) s e :
  session s sid e →
  with_lock sid body s =
    (result (body (Held e (closed s))),
     Server (<[sid := ep (state_of (body (Held e (closed s))))]> (sessions s))
            (dead (state_of (body (Held e (closed s))))),
     effects (body (Held e (closed s)))).
Proof.
  unfold session, with_lock. intros H. rewrite H. cbn [default]. do 2 f_equal.
  f_equal. apply map_eq. intros k. rewrite lookup_alter, lookup_insert.
  case_decide; [subst; by rewrite H|done].
Qed.

Lemma session_with_ep s sid e : session (with_ep s sid e) sid e.
Proof. apply lookup_insert_eq. Qed.

Lemma with_ep_with_ep s sid e e' :
  with_ep (with_ep s sid e) sid e' = with_ep s sid e'.
Proof. unfold with_ep. cbn [sessions closed]. by rewrite insert_insert_eq. Qed.

Lemma with_ep_id s sid e : session s sid e → with_ep s sid e = s.
Proof. unfold session, with_ep. intros H. rewrite insert_id by done. by destruct s. Qed.

Lemma getOrCreate_spec sid s :
  getOrCreate sid s = (tt, with_ep s sid (default new_endpoint (sessions s !! sid)), []).
Proof.
  unfold getOrCreate. rewrite bind_gets.
  destruct (sessions s !! sid) as [e|] eqn:E; simpl; [|done].
  by rewrite with_ep_id.
Qed.

Lemma Close_spec c s : Close c s = (tt, Server (sessions s) ({[c]} ∪ closed s), [EvClose c]).
Proof. reflexivity. Qed.

Lemma for_range_WriteJSON c (cands : list raw) h :
  for_range cands (λ cand, WriteJSON c (Msg "ice" "" cand)) h
  = (tt, h, (λ cand, wrote (dead h) c (Msg "ice" "" cand)) <$> cands).
Proof. by apply (for_range_emit (λ cand h, wrote (dead h) c (Msg "ice" "" cand))). Qed.

(** A valid [hello] for the sender role. *)
Lemma ws_sender_spec (c : conn) (data sid : string) (s : server) :
  sid ≠ "" →
  let e := default new_endpoint (sessions s !! sid) in
  let d := closed_with (sender e) (closed s) in
  ws c (Received data (Some (Hello "sender" sid))) s
  = (Some ("sender", sid),
     Server (<[sid := Endpoint (Some c) (viewer e) (offer e) None (iceFromSender e) []]>
               (sessions s)) d,
     closing (sender e) ++ flushed d c "answer" (answer e) (iceFromViewer e)).
Proof.
  intros Hsid e d. unfold ws, hello_bad. cbn [Role SID].
  rewrite (bool_decide_eq_false_2 (sid = "")) by done.
  rewrite (bool_decide_eq_true_2 ("sender" = "sender")) by done.
  cbn [negb andb orb].
  erewrite bind_eq by apply getOrCreate_spec. fold e.
  erewrite bind_eq by (apply with_lock_spec, session_with_ep).
  unfold result, state_of, effects, ret. cbn [fst snd with_ep sessions closed].
  rewrite insert_insert_eq, app_nil_r. cbn [app].
  rewrite !bind_gets. cbn [ep dead].
  subst d. destruct e as [snd vw off ans ifs ifv]. cbn [sender viewer offer answer iceFromSender iceFromViewer].
  destruct snd as [o|], ans as [a|];
    unfold bind, gets, modify, emit, ret, Close_locked;
    cbn -[union for_range WriteJSON]; rewrite ?for_range_WriteJSON;
    unfold WriteJSON, bind, gets, emit; cbn -[union]; rewrite ?app_nil_r; reflexivity.
Qed.

(** A valid [hello] for the viewer role. *)
Lemma ws_viewer_spec (c : conn) (data sid : string) (s : server) :
  sid ≠ "" →
  let e := default new_endpoint (sessions s !! sid) in
  let d := closed_with (viewer e) (closed s) in
  ws c (Received data (Some (Hello "viewer" sid))) s
  = (Some ("viewer", sid),
     Server (<[sid := Endpoint (sender e) (Some c) None (answer e) [] (iceFromViewer e)]>
               (sessions s)) d,
     closing (viewer e) ++ flushed d c "offer" (offer e) (iceFromSender e)).
Proof.
  intros Hsid e d. unfold ws, hello_bad. cbn [Role SID].
  rewrite (bool_decide_eq_false_2 (sid = "")) by done.
  rewrite (bool_decide_eq_false_2 ("viewer" = "sender")) by done.
  rewrite (bool_decide_eq_true_2 ("viewer" = "viewer")) by done.
  cbn [negb andb orb].
  erewrite bind_eq by apply getOrCreate_spec. fold e.
  erewrite bind_eq by (apply with_lock_spec, session_with_ep).
  unfold result, state_of, effects, ret. cbn [fst snd with_ep sessions closed].
  rewrite insert_insert_eq, app_nil_r. cbn [app].
  rewrite !bind_gets. cbn [ep dead].
  subst d. destruct e as [snd vw off ans ifs ifv]. cbn [sender viewer offer answer iceFromSender iceFromViewer].
  destruct vw as [o|], off as [a|];
    unfold bind, gets, modify, emit, ret, Close_locked;
    cbn -[union for_range WriteJSON]; rewrite ?for_range_WriteJSON;
    unfold WriteJSON, bind, gets, emit; cbn -[union]; rewrite ?app_nil_r; reflexivity.
Qed.

Lemma ws_rejects (c : conn) (first : incoming hello) (s : server) :
  match first with
  | Received _ (Some hi) => hello_bad hi = true
  | _ => True
  end →
  ws c first s = (None, Server (sessions s) ({[c]} ∪ closed s), [EvClose c]).
Proof.
  destruct first as [|data [hi|]]; [done| |done]. intros H. unfold ws. by rewrite H.
Qed.

Lemma alter_const (m : gmap string endpoint) sid e e' :
  m !! sid = Some e → alter (λ _, e') sid m = <[sid := e']> m.
Proof.
  intros H. apply map_eq. intros k. rewrite lookup_alter, lookup_insert.
  case_decide; [subst; by rewrite H|done].
Qed.

Lemma alter_default (f : endpoint → endpoint) sid (m : gmap string endpoint) :
  alter (λ _, f (default new_endpoint (m !! sid))) sid m = alter f sid m.
Proof.
  apply map_eq. intros k. rewrite !lookup_alter.
  case_decide; [subst; by destruct (m !! k)|done].
Qed.

Lemma alter_same (m : gmap string endpoint) sid :
  alter (λ _, default new_endpoint (m !! sid)) sid m = m.
Proof.
  apply map_eq. intros k. rewrite lookup_alter.
  case_decide; [subst; by destruct (m !! k)|done].
Qed.

(** One turn of the relay on a frame that parses, in any state. *)
Lemma relay_run (role sid : string) (c : conn) (data : string) (m : msg) (s : server) :
  relay role sid c (Received data (Some m)) s
  = (true,
     Server (alter (λ _, (routed role m (default new_endpoint (sessions s !! sid)) (closed s)).1)
               sid (sessions s)) (closed s),
     (routed role m (default new_endpoint (sessions s !! sid)) (closed s)).2).
Proof.
  unfold relay. cbn [ReadJSON]. unfold bind at 1, with_lock.
  unfold result, state_of, effects, ret, routed. cbn [fst snd].
  rewrite !bind_gets. cbn [ep dead]. rewrite app_nil_r.
  destruct (default new_endpoint (sessions s !! sid)) as [snd vw off ans ifs ifv].
  cbn [sender viewer offer answer iceFromSender iceFromViewer].
  repeat case_bool_decide; cbn [when]; try destruct vw; try destruct snd; reflexivity.
Qed.

Lemma relay_spec (role sid : string) (c : conn) (data : string) (m : msg) (s : server) e :
  session s sid e →
  relay role sid c (Received data (Some m)) s
  = (true, with_ep s sid (routed role m e (closed s)).1, (routed role m e (closed s)).2).
Proof.
  intros He. rewrite relay_run. unfold with_ep.
  rewrite (alter_const _ _ e) by done. unfold session in He. by rewrite He.
Qed.

(** The relay loop is left: the deferred function runs. *)
Lemma relay_exit_spec (role sid : string) (c : conn) (s : server) :
  relay_exit role sid c s
  = (tt, Server (alter (released role c) sid (sessions s)) ({[c]} ∪ closed s), [EvClose c]).
Proof.
  unfold relay_exit. unfold bind at 1, with_lock.
  unfold result, state_of, effects. cbn [fst snd].
  rewrite !bind_gets. cbn [ep dead].
  rewrite <- (alter_default (released role c)).
  destruct (default new_endpoint (sessions s !! sid)) as [snd vw off ans ifs ifv].
  unfold released. cbn [sender viewer offer answer iceFromSender iceFromViewer].
  unfold bind, ret, gets, modify, when, Close, emit, on_ep.
  repeat (case_bool_decide; cbn -[union alter] in *); try reflexivity; congruence.
Qed.

Lemma relay_unreadable (role sid : string) (c : conn) (inp : incoming msg) (s : server) :
  ReadJSON inp = None →
  relay role sid c inp s
  = (false, Server (alter (released role c) sid (sessions s)) ({[c]} ∪ closed s), [EvClose c]).
Proof.
  intros H. unfold relay. rewrite H.
  erewrite bind_eq by apply relay_exit_spec. by rewrite app_nil_r.
Qed.

(** *** Attaching *)

(** C5: an attaching viewer is sent the queued offer and the ICE candidates
    queued by the sender, in queue order, and both queues are emptied; an
    attaching sender is sent the queued answer and the candidates queued by
    the viewer; neither is sent what is queued for the other role; a
    following attach of the same role is sent nothing. *)
Theorem ws_flushes_what_was_queued_for_the_role
    (c c' : conn) (data data' sid : string) (s : server) :
  sid ≠ "" →
  let e := default new_endpoint (sessions s !! sid) in
  let rv := ws c (Received data (Some (Hello "viewer" sid))) s in
  let rs := ws c (Received data (Some (Hello "sender" sid))) s in
  effects rv
    = closing (viewer e) ++ flushed (closed (state_of rv)) c "offer" (offer e) (iceFromSender e) ∧
  session (state_of rv) sid
    (Endpoint (sender e) (Some c) None (answer e) [] (iceFromViewer e)) ∧
  effects rs
    = closing (sender e) ++ flushed (closed (state_of rs)) c "answer" (answer e) (iceFromViewer e) ∧
  session (state_of rs) sid
    (Endpoint (Some c) (viewer e) (offer e) None (iceFromSender e) []) ∧
  effects (ws c' (Received data' (Some (Hello "viewer" sid))) (state_of rv)) = [EvClose c] ∧
  effects (ws c' (Received data' (Some (Hello "sender" sid))) (state_of rs)) = [EvClose c].
Proof.
  intros Hsid e rv rs. subst rv rs.
  rewrite !(ws_viewer_spec c), !(ws_sender_spec c) by done. cbn zeta. fold e.
  unfold effects at 1 2, state_of. cbn [fst snd closed].
  split_and!; try done; try apply lookup_insert_eq.
  - rewrite ws_viewer_spec by done. cbn zeta. unfold effects. cbn [snd sessions].
    rewrite lookup_insert_eq. reflexivity.
  - rewrite ws_sender_spec by done. cbn zeta. unfold effects. cbn [snd sessions].
    rewrite lookup_insert_eq. reflexivity.
Qed.

Lemma ws_flushes_witness :
  let s := Server {["k7" := Endpoint (Some 1) None (Some "sdp") None ["c1"; "c2"] []]} ∅ in
  effects (ws 2 (Received "" (Some (Hello "viewer" "k7"))) s)
  = [EvWriteJSON 2 (Msg "offer" "sdp" "") true;
     EvWriteJSON 2 (Msg "ice" "" "c1") true;
     EvWriteJSON 2 (Msg "ice" "" "c2") true].
Proof.
  intros s.
  pose proof (ws_flushes_what_was_queued_for_the_role 2 3 "" "" "k7" s
                ltac:(discriminate)) as H.
  cbn zeta in H. destruct H as (H & _). exact H.
Defined.

(** *** Relaying *)

Lemma relay_loop_ice (role sid : string) (c : conn) (data : string) (ms : list msg)
    (s : server) (e : endpoint) :
  session s sid e →
  (if bool_decide (role = "sender") then viewer e else sender e) = None →
  Forall (λ m, Type_ m = "ice") ms →
  relay_loop role sid c ((λ m, Received data (Some m)) <$> ms) s
  = (true,
     with_ep s sid
       (if bool_decide (role = "sender")
        then set_iceFromSender (iceFromSender e ++ (Cand <$> ms)) e
        else set_iceFromViewer (iceFromViewer e ++ (Cand <$> ms)) e),
     []).
Proof.
  intros He Hdst Hms. revert s e He Hdst.
  induction Hms as [|m ms Hm _ IH]; intros s e He Hdst.
  - cbn [fmap list_fmap relay_loop]. unfold ret. rewrite app_nil_r.
    do 2 f_equal. symmetry. rewrite <- (with_ep_id s sid e He) at 2. f_equal.
    destruct e; case_bool_decide; cbn; rewrite ?app_nil_r; reflexivity.
  - cbn [fmap list_fmap relay_loop].
    erewrite bind_eq by (by apply relay_spec). cbn [app].
    unfold routed. rewrite Hdst, Hm. cbn [bool_decide decide_rel].
    rewrite (bool_decide_eq_false_2 ("ice" = "offer")) by done.
    rewrite (bool_decide_eq_false_2 ("ice" = "answer")) by done.
    rewrite (bool_decide_eq_true_2 ("ice" = "ice")) by done.
    case_bool_decide as Hrole; cbn [fst snd].
    + rewrite (IH _ (set_iceFromSender (iceFromSender e ++ [Cand m]) e));
        [|apply session_with_ep|by destruct e].
      unfold result, state_of, effects. cbn [fst snd].
      unfold with_ep. cbn [sessions closed].
      rewrite insert_insert_eq. destruct e. cbn. by rewrite <- app_assoc.
    + rewrite (IH _ (set_iceFromViewer (iceFromViewer e ++ [Cand m]) e));
        [|apply session_with_ep|by destruct e].
      unfold result, state_of, effects. cbn [fst snd].
      unfold with_ep. cbn [sessions closed].
      rewrite insert_insert_eq. destruct e. cbn. by rewrite <- app_assoc.
Qed.

Ltac by_type :=
  unfold routed;
  repeat match goal with H : Type_ _ = _ |- _ => rewrite H end;
  repeat match goal with H : viewer _ = None |- _ => rewrite H end;
  repeat match goal with H : sender _ = None |- _ => rewrite H end;
  repeat (case_bool_decide; try done).

(** The queueing turns of the relay, with the new endpoint written with the
    field setters. *)
Lemma relay_queues_in_terms_of_setters
    (sid : string) (c : conn) (data : string) (m : msg) (s : server) (e : endpoint) :
  session s sid e →
  (Type_ m = "offer" → viewer e = None →
     relay "sender" sid c (Received data (Some m)) s
     = (true, with_ep s sid (set_offer (Some (SDP m)) e), [])) ∧
  (Type_ m = "answer" → sender e = None →
     relay "viewer" sid c (Received data (Some m)) s
     = (true, with_ep s sid (set_answer (Some (SDP m)) e), [])) ∧
  (Type_ m = "ice" → viewer e = None →
     relay "sender" sid c (Received data (Some m)) s
     = (true, with_ep s sid (set_iceFromSender (iceFromSender e ++ [Cand m]) e), [])) ∧
  (Type_ m = "ice" → sender e = None →
     relay "viewer" sid c (Received data (Some m)) s
     = (true, with_ep s sid (set_iceFromViewer (iceFromViewer e ++ [Cand m]) e), [])) ∧
  (∀ ms, Forall (λ m, Type_ m = "ice") ms → viewer e = None →
     relay_loop "sender" sid c ((λ m, Received data (Some m)) <$> ms) s
     = (true, with_ep s sid (set_iceFromSender (iceFromSender e ++ (Cand <$> ms)) e), [])) ∧
  (∀ ms, Forall (λ m, Type_ m = "ice") ms → sender e = None →
     relay_loop "viewer" sid c ((λ m, Received data (Some m)) <$> ms) s
     = (true, with_ep s sid (set_iceFromViewer (iceFromViewer e ++ (Cand <$> ms)) e), [])) ∧
  (∀ m', Type_ m = "offer" → Type_ m' = "offer" → viewer e = None →
     relay_loop "sender" sid c [Received data (Some m); Received data (Some m')] s
     = (true, with_ep s sid (set_offer (Some (SDP m')) e), [])) ∧
  (∀ m', Type_ m = "answer" → Type_ m' = "answer" → sender e = None →
     relay_loop "viewer" sid c [Received data (Some m); Received data (Some m')] s
     = (true, with_ep s sid (set_answer (Some (SDP m')) e), [])).
Proof.
  intros He. split_and!.
  - intros Ht Hd. rewrite (relay_spec _ _ _ _ _ _ e) by done. by_type.
  - intros Ht Hd. rewrite (relay_spec _ _ _ _ _ _ e) by done. by_type.
  - intros Ht Hd. rewrite (relay_spec _ _ _ _ _ _ e) by done. by_type.
  - intros Ht Hd. rewrite (relay_spec _ _ _ _ _ _ e) by done. by_type.
  - intros ms Hms Hd. by rewrite (relay_loop_ice "sender" sid c data ms s e).
  - intros ms Hms Hd. by rewrite (relay_loop_ice "viewer" sid c data ms s e).
  - intros m' Ht Ht' Hd. cbn [relay_loop].
    erewrite bind_eq by (by apply relay_spec). cbn beta iota.
    erewrite bind_eq by (apply relay_spec, session_with_ep). cbn beta iota.
    unfold result, state_of, effects, ret. cbn [fst snd closed].
    rewrite with_ep_with_ep.
    assert (routed "sender" m e (closed s) = (set_offer (Some (SDP m)) e, [])) as ->
      by by_type.
    cbn [fst snd with_ep closed].
    assert (routed "sender" m' (set_offer (Some (SDP m)) e) (closed s)
            = (set_offer (Some (SDP m')) e, [])) as ->; [|done].
    destruct e; cbn in Hd; subst. by_type.
  - intros m' Ht Ht' Hd. cbn [relay_loop].
    erewrite bind_eq by (by apply relay_spec). cbn beta iota.
    erewrite bind_eq by (apply relay_spec, session_with_ep). cbn beta iota.
    unfold result, state_of, effects, ret. cbn [fst snd closed].
    rewrite with_ep_with_ep.
    assert (routed "viewer" m e (closed s) = (set_answer (Some (SDP m)) e, [])) as ->
      by by_type.
    cbn [fst snd with_ep closed].
    assert (routed "viewer" m' (set_answer (Some (SDP m)) e) (closed s)
            = (set_answer (Some (SDP m')) e, [])) as ->; [|done].
    destruct e; cbn in Hd; subst. by_type.
Qed.

(** C2: while the destination role is unattached, an offer from the sender
    and an answer from the viewer are stored in their slot, replacing what
    was there, and an ICE candidate is appended to the list of its
    direction; every other field of the endpoint, every other session and
    the network stay as they were, nothing is written and the loop goes on.
    A run of ICE candidates ends up in the queue in the order of arrival,
    and of two offers (answers) in a row the second is kept. *)
Theorem relay_queues_while_counterpart_unattached
    (sid : string) (c : conn) (data : string) (m : msg) (s : server) (e : endpoint) :
  session s sid e →
  (Type_ m = "offer" → viewer e = None →
     relay "sender" sid c (Received data (Some m)) s
     = (true,
        Server (<[sid := Endpoint (sender e) (viewer e) (Some (SDP m)) (answer e)
                           (iceFromSender e) (iceFromViewer e)]> (sessions s)) (closed s),
        [])) ∧
  (Type_ m = "answer" → sender e = None →
     relay "viewer" sid c (Received data (Some m)) s
     = (true,
        Server (<[sid := Endpoint (sender e) (viewer e) (offer e) (Some (SDP m))
                           (iceFromSender e) (iceFromViewer e)]> (sessions s)) (closed s),
        [])) ∧
  (Type_ m = "ice" → viewer e = None →
     relay "sender" sid c (Received data (Some m)) s
     = (true,
        Server (<[sid := Endpoint (sender e) (viewer e) (offer e) (answer e)
                           (iceFromSender e ++ [Cand m]) (iceFromViewer e)]> (sessions s))
               (closed s),
        [])) ∧
  (Type_ m = "ice" → sender e = None →
     relay "viewer" sid c (Received data (Some m)) s
     = (true,
        Server (<[sid := Endpoint (sender e) (viewer e) (offer e) (answer e)
                           (iceFromSender e) (iceFromViewer e ++ [Cand m])]> (sessions s))
               (closed s),
        [])) ∧
  (∀ ms, Forall (λ m, Type_ m = "ice") ms → viewer e = None →
     relay_loop "sender" sid c ((λ m, Received data (Some m)) <$> ms) s
     = (true,
        Server (<[sid := Endpoint (sender e) (viewer e) (offer e) (answer e)
                           (iceFromSender e ++ (Cand <$> ms)) (iceFromViewer e)]> (sessions s))
               (closed s),
        [])) ∧
  (∀ ms, Forall (λ m, Type_ m = "ice") ms → sender e = None →
     relay_loop "viewer" sid c ((λ m, Received data (Some m)) <$> ms) s
     = (true,
        Server (<[sid := Endpoint (sender e) (viewer e) (offer e) (answer e)
                           (iceFromSender e) (iceFromViewer e ++ (Cand <$> ms))]> (sessions s))
               (closed s),
        [])) ∧
  (∀ m', Type_ m = "offer" → Type_ m' = "offer" → viewer e = None →
     relay_loop "sender" sid c [Received data (Some m); Received data (Some m')] s
     = (true,
        Server (<[sid := Endpoint (sender e) (viewer e) (Some (SDP m')) (answer e)
                           (iceFromSender e) (iceFromViewer e)]> (sessions s)) (closed s),
        [])) ∧
  (∀ m', Type_ m = "answer" → Type_ m' = "answer" → sender e = None →
     relay_loop "viewer" sid c [Received data (Some m); Received data (Some m')] s
     = (true,
        Server (<[sid := Endpoint (sender e) (viewer e) (offer e) (Some (SDP m'))
                           (iceFromSender e) (iceFromViewer e)]> (sessions s)) (closed s),
        [])).
Proof.
  intros He.
  destruct (relay_queues_in_terms_of_setters sid c data m s e He)
    as (H1 & H2 & H3 & H4 & H5 & H6 & H7 & H8).
  split_and!.
  - intros Ht Hd. by rewrite H1.
  - intros Ht Hd. by rewrite H2.
  - intros Ht Hd. by rewrite H3.
  - intros Ht Hd. by rewrite H4.
  - intros ms Hms Hd. by rewrite H5.
  - intros ms Hms Hd. by rewrite H6.
  - intros m' Ht Ht' Hd. by rewrite H7.
  - intros m' Ht Ht' Hd. by rewrite H8.
Qed.

Lemma relay_queues_witness :
  (relay "sender" "k7" 1 (Received "" (Some (Msg "offer" "new" "")))
     (Server {["k7" := Endpoint (Some 1) None (Some "old") None ["c1"] []]} ∅)
   = (true,
      Server (<["k7" := Endpoint (Some 1) None (Some "new") None ["c1"] []]>
                {["k7" := Endpoint (Some 1) None (Some "old") None ["c1"] []]}) ∅,
      [])) ∧
  (relay "viewer" "k7" 2 (Received "" (Some (Msg "answer" "new" "")))
     (Server {["k7" := Endpoint None (Some 2) None (Some "old") [] ["v1"]]} ∅)
   = (true,
      Server (<["k7" := Endpoint None (Some 2) None (Some "new") [] ["v1"]]>
                {["k7" := Endpoint None (Some 2) None (Some "old") [] ["v1"]]}) ∅,
      [])) ∧
  (relay "sender" "k7" 1 (Received "" (Some (Msg "ice" "" "c2")))
     (Server {["k7" := Endpoint (Some 1) None (Some "old") None ["c1"] []]} ∅)
   = (true,
      Server (<["k7" := Endpoint (Some 1) None (Some "old") None ["c1"; "c2"] []]>
                {["k7" := Endpoint (Some 1) None (Some "old") None ["c1"] []]}) ∅,
      [])) ∧
  (relay "viewer" "k7" 2 (Received "" (Some (Msg "ice" "" "v2")))
     (Server {["k7" := Endpoint None (Some 2) None (Some "old") [] ["v1"]]} ∅)
   = (true,
      Server (<["k7" := Endpoint None (Some 2) None (Some "old") [] ["v1"; "v2"]]>
                {["k7" := Endpoint None (Some 2) None (Some "old") [] ["v1"]]}) ∅,
      [])).
Proof.
  split_and!.
  - exact (proj1 (relay_queues_while_counterpart_unattached "k7" 1 "" (Msg "offer" "new" "")
             (Server {["k7" := Endpoint (Some 1) None (Some "old") None ["c1"] []]} ∅)
             (Endpoint (Some 1) None (Some "old") None ["c1"] []) eq_refl) eq_refl eq_refl).
  - exact (proj1 (proj2 (relay_queues_while_counterpart_unattached "k7" 2 ""
             (Msg "answer" "new" "")
             (Server {["k7" := Endpoint None (Some 2) None (Some "old") [] ["v1"]]} ∅)
             (Endpoint None (Some 2) None (Some "old") [] ["v1"]) eq_refl)) eq_refl eq_refl).
  - exact (proj1 (proj2 (proj2 (relay_queues_while_counterpart_unattached "k7" 1 ""
             (Msg "ice" "" "c2")
             (Server {["k7" := Endpoint (Some 1) None (Some "old") None ["c1"] []]} ∅)
             (Endpoint (Some 1) None (Some "old") None ["c1"] []) eq_refl))) eq_refl eq_refl).
  - exact (proj1 (proj2 (proj2 (proj2 (relay_queues_while_counterpart_unattached "k7" 2 ""
             (Msg "ice" "" "v2")
             (Server {["k7" := Endpoint None (Some 2) None (Some "old") [] ["v1"]]} ∅)
             (Endpoint None (Some 2) None (Some "old") [] ["v1"]) eq_refl)))) eq_refl eq_refl).
Defined.

(** C6: a frame whose type is none of offer, answer, ice, an offer from
    the viewer and an answer from the sender change nothing and are written
    to nobody; the loop goes on. *)
Theorem relay_discards_unknown_and_misdirected
    (role sid : string) (c : conn) (data : string) (m : msg) (s : server) :
  (Type_ m ≠ "offer" ∧ Type_ m ≠ "answer" ∧ Type_ m ≠ "ice")
  ∨ (Type_ m = "offer" ∧ role = "viewer")
  ∨ (Type_ m = "answer" ∧ role = "sender") →
  relay role sid c (Received data (Some m)) s = (true, s, []).
Proof.
  intros H. rewrite relay_run.
  assert (routed role m (default new_endpoint (sessions s !! sid)) (closed s)
          = (default new_endpoint (sessions s !! sid), [])) as ->.
  { unfold routed. destruct H as [(H1 & H2 & H3)|[[H1 ->]|[H1 ->]]].
    - by rewrite !bool_decide_eq_false_2.
    - rewrite H1. by repeat (case_bool_decide; try done).
    - rewrite H1. by repeat (case_bool_decide; try done). }
  cbn [fst snd]. rewrite alter_same. by destruct s.
Qed.

Lemma relay_discards_witness :
  let s := Server {["k7" := Endpoint (Some 1) (Some 2) None None [] []]} ∅ in
  relay "sender" "k7" 1 (Received "" (Some (Msg "answer" "sdp" ""))) s = (true, s, []).
Proof.
  intros s. apply (relay_discards_unknown_and_misdirected "sender" "k7" 1 "" _ s).
  right. right. split; reflexivity.
Defined.

(** *** Malformed frames *)

(** A frame of the relay that parses, here an offer without [sdp], does not
    end the connection, and it changes the session. *)
Lemma relay_keeps_connection_on_missing_field :
  let s := Server {["k7" := Endpoint (Some 1) None None None [] []]} ∅ in
  let r := relay "sender" "k7" 1 (Received offer_without_sdp (Some (Msg "offer" "" ""))) s in
  ¬ terminated r 1 ∧ state_of r ≠ s ∧
  session (state_of r) "k7" (Endpoint (Some 1) None (Some "") None [] []).
Proof.
  intros s r.
  assert (r = (true, with_ep s "k7" (Endpoint (Some 1) None (Some "") None [] []), [])) as ->.
  { unfold r. by rewrite (relay_spec _ _ _ _ _ _ (Endpoint (Some 1) None None None [] [])). }
  split_and!.
  - intros [H _]. discriminate H.
  - unfold state_of. cbn [fst snd]. intros H.
    assert (sessions (with_ep s "k7" (Endpoint (Some 1) None (Some "") None [] [])) !! "k7"
            = sessions s !! "k7") as H' by (by rewrite H).
    discriminate H'.
  - apply session_with_ep.
Qed.

(** C7, amended: a first message that cannot be read, does not parse, or
    has a role other than sender and viewer or an empty sid gets the
    connection closed and nothing else: no session is created.  A relay
    frame that cannot be read or does not parse ends the loop: the role slot
    is emptied if it still holds the connection, the connection is closed,
    the other role and the queues stay (last part, field by field).  A relay
    frame that parses never ends the loop, whatever it lacks: it is routed
    by its type and no connection is closed. *)
Theorem malformed_frames_end_the_connection (c : conn) (s : server) :
  (∀ first,
     match first with
     | Received _ (Some hi) => (Role hi ≠ "sender" ∧ Role hi ≠ "viewer") ∨ SID hi = ""
     | _ => True
     end →
     ws c first s = (None, Server (sessions s) ({[c]} ∪ closed s), [EvClose c])) ∧
  (∀ role sid inp,
     ReadJSON inp = None →
     relay role sid c inp s
     = (false, Server (alter (released role c) sid (sessions s)) ({[c]} ∪ closed s),
        [EvClose c])) ∧
  (∀ role sid data m,
     relay role sid c (Received data (Some m)) s
     = (true,
        Server (alter (λ _, (routed role m (default new_endpoint (sessions s !! sid))
                               (closed s)).1) sid (sessions s)) (closed s),
        (routed role m (default new_endpoint (sessions s !! sid)) (closed s)).2) ∧
     ∀ x, EvClose x ∉ effects (relay role sid c (Received data (Some m)) s)) ∧
  (∀ sid inp e,
     ReadJSON inp = None → sessions s !! sid = Some e →
     sessions (state_of (relay "sender" sid c inp s)) !! sid
     = Some (Endpoint (if decide (sender e = Some c) then None else sender e) (viewer e)
               (offer e) (answer e) (iceFromSender e) (iceFromViewer e)) ∧
     sessions (state_of (relay "viewer" sid c inp s)) !! sid
     = Some (Endpoint (sender e) (if decide (viewer e = Some c) then None else viewer e)
               (offer e) (answer e) (iceFromSender e) (iceFromViewer e))).
Proof.
  split_and!.
  4: { intros sid inp e Hr He. rewrite !relay_unreadable by done.
       unfold state_of. cbn [fst snd sessions]. rewrite !lookup_alter_eq, He.
       cbn [fmap option_fmap option_map]. unfold released.
       rewrite (bool_decide_eq_true_2 ("sender" = "sender")) by done.
       rewrite (bool_decide_eq_false_2 ("viewer" = "sender")) by done.
       rewrite (bool_decide_eq_true_2 ("viewer" = "viewer")) by done.
       cbn [andb]. destruct e as [snd vw off ans ifs ifv].
       cbn [sender viewer offer answer iceFromSender iceFromViewer].
       split; case_bool_decide; case_decide; done. }
  - intros first H. apply ws_rejects. destruct first as [|data [hi|]]; try done.
    unfold hello_bad. destruct H as [[H1 H2]|H].
    + rewrite (bool_decide_eq_false_2 _ H1), (bool_decide_eq_false_2 _ H2). done.
    + rewrite (bool_decide_eq_true_2 _ H). apply orb_true_r.
  - intros role sid inp H. by apply relay_unreadable.
  - intros role sid data m. rewrite relay_run. split; [done|].
    intros x. unfold effects, routed. cbn [snd].
    repeat case_match; cbn [snd]; intros Hin;
      repeat (apply elem_of_cons in Hin as [Hin|Hin]; [discriminate Hin|]);
      by apply elem_of_nil in Hin.
Qed.

Lemma malformed_frames_witness :
  ws 5 (Received "" (Some (Hello "admin" "k7"))) (Server ∅ ∅)
  = (None, Server ∅ ({[5]} ∪ ∅), [EvClose 5]).
Proof.
  destruct (malformed_frames_end_the_connection 5 (Server ∅ ∅)) as (H & _).
  apply (H (Received "" (Some (Hello "admin" "k7")))).
  left. split; discriminate.
Defined.

(** The candidates the sender sends before the viewer is there reach the
    viewer on attach, once and in the order they were sent. *)
Lemma ice_sent_before_attach_arrives_in_order
    (c v : conn) (data sid : string) (ms : list msg) (s : server) (e : endpoint) :
  sid ≠ "" → session s sid e → viewer e = None → offer e = None →
  iceFromSender e = [] → Forall (λ m, Type_ m = "ice") ms →
  let s1 := state_of (relay_loop "sender" sid c ((λ m, Received data (Some m)) <$> ms) s) in
  let r := ws v (Received data (Some (Hello "viewer" sid))) s1 in
  effects r = (λ cand, wrote (closed s) v (Msg "ice" "" cand)) <$> (Cand <$> ms) ∧
  iceFromSender <$> sessions (state_of r) !! sid = Some [].
Proof.
  intros Hsid He Hv Ho Hq Hms s1 r.
  assert (s1 = with_ep s sid (set_iceFromSender (Cand <$> ms) e)) as ->.
  { unfold s1. rewrite (relay_loop_ice "sender" sid c data ms s e) by done.
    rewrite (bool_decide_eq_true_2 ("sender" = "sender")) by done.
    by rewrite Hq. }
  unfold r. rewrite ws_viewer_spec by done. cbn zeta.
  unfold effects, state_of. cbn [fst snd with_ep sessions closed].
  rewrite !lookup_insert_eq. cbn [default from_option id fmap option_fmap option_map].
  destruct e as [snd vw off ans ifs ifv]. cbn in Hv, Ho, Hq. subst. done.
Qed.

(** *** The fragment [singnaling.go] *)

(** It forwards whatever parses to an attached counterpart, of any type and
    direction, ... *)
Lemma relay_plain_forwards_any_type role sid c b m s e d :
  session s sid e →
  (if bool_decide (role = "sender") then viewer e else sender e) = Some d →
  relay_plain role sid c (Received b (Some m)) s
  = (true, s, [EvWriteMessage d b (bool_decide (d ∉ closed s))]).
Proof.
  intros He Hd. unfold relay_plain.
  erewrite bind_eq by (by apply with_lock_spec).
  unfold gets, result, state_of, effects. cbn [fst snd ep dead]. rewrite Hd.
  fold (with_ep s sid e). rewrite with_ep_id by done. reflexivity.
Qed.

(** ... drops it when the counterpart is not attached, ... *)
Lemma relay_plain_drops_when_unattached role sid c b m s e :
  session s sid e →
  (if bool_decide (role = "sender") then viewer e else sender e) = None →
  relay_plain role sid c (Received b (Some m)) s = (true, s, []).
Proof.
  intros He Hd. unfold relay_plain.
  erewrite bind_eq by (by apply with_lock_spec).
  unfold gets, result, state_of, effects. cbn [fst snd ep dead]. rewrite Hd.
  fold (with_ep s sid e). rewrite with_ep_id by done. reflexivity.
Qed.

(** ... and skips a frame that does not parse. *)
Lemma relay_plain_skips_unparseable role sid c b s :
  relay_plain role sid c (Received b None) s = (true, s, []).
Proof. reflexivity. Qed.
End SignalFacts.
